(** * GRR configuration manager ([lib/config_lib.py]): a shallow embedding

    The development follows the layout of the Python module: exceptions and
    Python values, the string helpers the module relies on, the filter
    classes, the [StringInterpolator] lexer, and the [GrrConfigManager]
    resolution engine.  Python byte strings are [string]; dictionaries keyed
    by strings are [gmap string _]; unbounded Python recursion is modelled
    with a fuel argument. *)

From Stdlib Require Import ZArith Ascii String List Lia Bool.
From stdpp Require Import base option gmap strings list fin_maps pretty.

Local Open Scope string_scope.
Local Open Scope list_scope.

(** ** Python values and exceptions *)

#[local] Set Warnings "-register-all".

(** The Python objects that can sit in a configuration layer.  Floats are
    left out; a dictionary keeps its items in order. *)
Inductive pyobj : Type :=
| PyNone
| PyStr (s : string)
| PyBool (b : bool)
| PyInt (z : Z)
| PyList (l : list string)
| PyDict (d : list (string * pyobj)).

(** The three places where the interpolator itself raises [lexer.ParseError]. *)
Inductive imbalance : Type :=
| UnbalancedParenthesis   (* ExpandArg: "Unbalanced parenthesis: ..." *)
| UnbalancedLiteral       (* EndLiteralExpression: "Unbalanced literal sequence: ..." *)
| NestedNotBalanced.      (* Parse: "Nested expression not balanced." *)

Inductive exn : Type :=
| ParseError (msg : string)
| ConfigFormatError (msg : string)
| FilterError (msg : string)
| RuntimeError (msg : string)
| TypeValueError (msg : string)
| IndexError
| TypeError
| AttributeError
| OtherError (msg : string).

(** Outcome of a call: a value, a raised exception, or the recursion budget
    of the model ran out (the Python call would still be running). *)
Inductive res (E A : Type) : Type :=
| Ok (a : A)
| Raise (e : E)
| OutOfFuel.
Arguments Ok {E A} a.
Arguments Raise {E A} e.
Arguments OutOfFuel {E A}.

Abbreviation result := (res exn).

Definition bind {E A B} (r : res E A) (k : A -> res E B) : res E B :=
  match r with
  | Ok a => k a
  | Raise e => Raise e
  | OutOfFuel => OutOfFuel
  end.

Notation "'let!' x ':=' c1 'in' c2" := (bind c1 (fun x => c2))
  (at level 10, x pattern, c1 at level 100, c2 at level 200).

(** ** String helpers ([str] methods used by the module) *)

Definition backslash : ascii := "\"%char.

Definition ascii_eqb (a b : ascii) : bool := Ascii.eqb a b.

Definition char_in (c : ascii) (cs : list ascii) : bool :=
  existsb (ascii_eqb c) cs.

(** [sub in s] for a one-character [sub]. *)
Fixpoint contains (c : ascii) (s : string) : bool :=
  match s with
  | EmptyString => false
  | String a s' => ascii_eqb a c || contains c s'
  end.

(** [s.startswith(p)]. *)
Definition startswith (p s : string) : bool := String.prefix p s.

(** [s.split(sep, 1)]: [None] when [sep] does not occur (a one-element
    list in Python), otherwise the text before and after the first [sep]. *)
Fixpoint split1 (sep : ascii) (s : string) : option (string * string) :=
  match s with
  | EmptyString => None
  | String a s' =>
      if ascii_eqb a sep then Some (EmptyString, s')
      else match split1 sep s' with
           | Some (l, r) => Some (String a l, r)
           | None => None
           end
  end.

(** [s.split(sep)]. *)
Fixpoint split (sep : ascii) (s : string) : list string :=
  match s with
  | EmptyString => [EmptyString]
  | String a s' =>
      if ascii_eqb a sep then EmptyString :: split sep s'
      else match split sep s' with
           | w :: ws => String a w :: ws
           | [] => [String a EmptyString]
           end
  end.

Definition lower_char (c : ascii) : ascii :=
  let n := nat_of_ascii c in
  if (65 <=? n)%nat && (n <=? 90)%nat then ascii_of_nat (n + 32) else c.

Definition upper_char (c : ascii) : ascii :=
  let n := nat_of_ascii c in
  if (97 <=? n)%nat && (n <=? 122)%nat then ascii_of_nat (n - 32) else c.

Fixpoint map_string (f : ascii -> ascii) (s : string) : string :=
  match s with
  | EmptyString => EmptyString
  | String a s' => String (f a) (map_string f s')
  end.

(** [s.lower()] and [s.upper()] on byte strings. *)
Definition lower (s : string) : string := map_string lower_char s.
Definition upper (s : string) : string := map_string upper_char s.

(** ** [GrrConfigManager.EscapeString]

    [re.sub(r"([\\%){}])", r"\\\1", string)]: every character of the class
    [\ % ) { }] is replaced by a backslash followed by itself. *)
Definition escape_class : list ascii :=
  [backslash; "%"; ")"; "{"; "}"]%char.

Fixpoint EscapeString (s : string) : string :=
  match s with
  | EmptyString => EmptyString
  | String c s' =>
      if char_in c escape_class
      then String backslash (String c (EscapeString s'))
      else String c (EscapeString s')
  end.

(** ** Type descriptors

    The [type_info] module is not part of the sources; a descriptor is the
    record of the methods the configuration manager calls on it. *)
Record type_info : Type := {
  ti_name : option string;
  Validate : pyobj -> result unit;      (* raises TypeValueError *)
  ToString : pyobj -> string;
  FromString : string -> result pyobj;  (* may raise TypeValueError *)
  GetDefault : pyobj
}.

(** [str(x)] as used by the [%s] conversions of the module. *)
Definition py_str (o : option string) : string :=
  match o with
  | Some s => s
  | None => "None"
  end.

(** ** The regular expressions of the token table

    The patterns of [StringInterpolator.tokens] only use single characters,
    character classes, a greedy [+] on a class and the anchors [^] and [$];
    they are compiled with [re.DOTALL | re.M], so [.] matches every byte. *)
Inductive charset : Type :=
| Chr (c : ascii)            (* an escaped or plain character *)
| NoneOf (cs : list ascii)   (* [^...] *)
| Letters                    (* [a-zA-Z] *)
| AnyChar.                   (* . *)

Inductive atom : Type :=
| One (cs : charset)
| Many (cs : charset)        (* cs+ , greedy *)
| Bol                        (* ^ *)
| Eol.                       (* $ *)

Definition regex : Type := list atom.

Definition is_letter (c : ascii) : bool :=
  let n := nat_of_ascii c in
  ((65 <=? n)%nat && (n <=? 90)%nat) || ((97 <=? n)%nat && (n <=? 122)%nat).

Definition in_charset (c : ascii) (cs : charset) : bool :=
  match cs with
  | Chr a => ascii_eqb c a
  | NoneOf l => negb (char_in c l)
  | Letters => is_letter c
  | AnyChar => true
  end.

Definition newline : ascii := "010"%char.

Definition push_piece (c : ascii) (m : option (list string * string))
  : option (list string * string) :=
  match m with
  | Some (ps, rest) => Some (String c EmptyString :: ps, rest)
  | None => None
  end.

(** [regex.match(buffer)]: the pieces matched by each atom, in order, and
    the unconsumed rest of the buffer.  A [Many] atom takes as many
    characters as it can and gives them back one at a time when the
    remainder of the pattern does not match. *)
Fixpoint re_match (r : regex) (s : string) : option (list string * string) :=
  match r with
  | [] => Some ([], s)
  | One cs :: r' =>
      match s with
      | String c s' =>
          if in_charset c cs then push_piece c (re_match r' s') else None
      | EmptyString => None
      end
  | Many cs :: r' =>
      (fix many (s : string) : option (list string * string) :=
         match s with
         | String c s' =>
             if in_charset c cs then
               match many s' with
               | Some (p :: ps, rest) => Some (String c p :: ps, rest)
               | _ => push_piece c (re_match r' s')
               end
             else None
         | EmptyString => None
         end) s
  | Bol :: r' =>
      match re_match r' s with
      | Some (ps, rest) => Some (EmptyString :: ps, rest)
      | None => None
      end
  | Eol :: r' =>
      match s with
      | EmptyString => re_match r' s
      | String c _ => if ascii_eqb c newline then re_match r' s else None
      end
  end.

(** [m.group(0)] and [m.group(1)]. *)
Definition group0 (ps : list string) : string := fold_right append EmptyString ps.
Definition group (n : nat) (ps : list string) : string := nth n ps EmptyString.

(** ** [StringInterpolator]: the token table *)

Inductive action : Type :=
| AppendArg | Escape | EndLiteralExpression | PopState
| StartExpression | PushState | Filter | ExpandArg.

Record Token : Type := {
  state_regex : option string;
  tregex : regex;
  actions : list action;
  next_state : option string
}.

Definition mkToken st re acts nxt : Token :=
  {| state_regex := st; tregex := re; actions := acts; next_state := nxt |}.

Definition tokens : list Token := [
  (* lexer.Token("Literal", r"\\[^}]", "AppendArg", None) *)
  mkToken (Some "Literal") [One (Chr backslash); One (NoneOf ["}"%char])]
          [AppendArg] None;
  (* lexer.Token(None, r"\\(.)", "Escape", None) *)
  mkToken None [One (Chr backslash); One AnyChar] [Escape] None;
  (* lexer.Token("Literal", r"\}", "EndLiteralExpression,PopState", None) *)
  mkToken (Some "Literal") [One (Chr "}")] [EndLiteralExpression; PopState] None;
  (* lexer.Token("Literal", r"[^}]+", "AppendArg", None) *)
  mkToken (Some "Literal") [Many (NoneOf ["}"%char])] [AppendArg] None;
  (* lexer.Token(None, r"\%\{", "StartExpression,PushState", "Literal") *)
  mkToken None [One (Chr "%"); One (Chr "{")] [StartExpression; PushState]
          (Some "Literal");
  (* lexer.Token(None, r"\%\(", "StartExpression", None) *)
  mkToken None [One (Chr "%"); One (Chr "(")] [StartExpression] None;
  (* lexer.Token(None, r"\|([a-zA-Z]+)\)", "Filter", None) *)
  mkToken None [One (Chr "|"); Many Letters; One (Chr ")")] [Filter] None;
  (* lexer.Token(None, r"\)", "ExpandArg", None) *)
  mkToken None [One (Chr ")")] [ExpandArg] None;
  (* lexer.Token(None, r"[^()%{}|\\]+", "AppendArg", None) *)
  mkToken None
          [Many (NoneOf ["("; ")"; "%"; "{"; "}"; "|"; backslash]%char)]
          [AppendArg] None;
  (* lexer.Token(None, r".", "AppendArg", None) *)
  mkToken None [One AnyChar] [AppendArg] None;
  (* lexer.Token(None, "^$", None, None) *)
  mkToken None [Bol; Eol] [] None
].

(** [STRING_ESCAPES.get(string, string[1:])]. *)
Definition STRING_ESCAPES (s : string) : option string :=
  if String.eqb s (String backslash (String backslash EmptyString))
  then Some (String backslash EmptyString)
  else if String.eqb s (String backslash "n") then Some (String newline EmptyString)
  else if String.eqb s (String backslash "t") then Some (String "009"%char EmptyString)
  else if String.eqb s (String backslash "r") then Some (String "013"%char EmptyString)
  else None.

Definition tail_string (s : string) : string :=
  match s with
  | EmptyString => EmptyString
  | String _ s' => s'
  end.

Definition escape_value (s : string) : string :=
  match STRING_ESCAPES s with
  | Some r => r
  | None => tail_string s
  end.

(** ** [StringInterpolator]: state and callbacks *)

(** The lexer object: the fields of [lexer.Lexer] plus the accumulator
    [stack], kept with its top ([self.stack[-1]]) at the head. *)
Record lexer : Type := {
  buffer : string;
  state : string;
  state_stack : list string;
  processed_buffer : string;
  stack : list string
}.

Definition set_stack (st : list string) (lx : lexer) : lexer :=
  {| buffer := buffer lx; state := state lx; state_stack := state_stack lx;
     processed_buffer := processed_buffer lx; stack := st |}.

Definition set_state (s : string) (ss : list string) (lx : lexer) : lexer :=
  {| buffer := buffer lx; state := s; state_stack := ss;
     processed_buffer := processed_buffer lx; stack := stack lx |}.

Definition consume (matched rest : string) (lx : lexer) : lexer :=
  {| buffer := rest; state := state lx; state_stack := state_stack lx;
     processed_buffer := processed_buffer lx +:+ matched; stack := stack lx |}.

(** How one evaluation can fail: by a [lexer.ParseError] of its own (with
    [processed_buffer] at that point), or by an exception coming out of a
    filter or of the configuration it queries. *)
Inductive lexerr : Type :=
| Unbalanced (k : imbalance) (processed : string)
| Foreign (e : exn).

Abbreviation outcome := (res lexerr).

(** What the interpolator calls outside of itself: [self.config[name]],
    [self.config.FindTypeInfo(name)], the filter registry
    [ConfigFilter.classes_by_name] and the descriptor [type_info.String()]. *)
Record host : Type := {
  config_getitem : string -> result pyobj;
  config_FindTypeInfo : string -> result (option type_info);
  classes_by_name : string -> option (pyobj -> result pyobj);
  String_default : type_info
}.

Definition while_parsing (parameter : option string) (e : string) : string :=
  "While parsing " +:+ py_str parameter +:+ ": " +:+ e.

Definition imbalance_message (k : imbalance) (processed : string) : string :=
  match k with
  | UnbalancedParenthesis =>
      "Unbalanced parenthesis: Can not expand '" +:+ processed +:+ "'"
  | UnbalancedLiteral =>
      "Unbalanced literal sequence: Can not expand '" +:+ processed +:+ "'"
  | NestedNotBalanced => "Nested expression not balanced."
  end.

Section Interpolator.
Variable H : host.
Variable default_section : option string.
Variable parameter : option string.

(** An exception leaving a callback.  [NextToken] catches
    [lexer.ParseError] and hands it to [Error], which raises
    [ConfigFormatError]; everything else propagates. *)
Definition from_callee {A} (r : result A) : outcome A :=
  match r with
  | Ok a => Ok a
  | Raise (ParseError m) =>
      Raise (Foreign (ConfigFormatError (while_parsing parameter m)))
  | Raise e => Raise (Foreign e)
  | OutOfFuel => OutOfFuel
  end.

(** [self.stack[-1] += s]. *)
Definition append_top (s : string) (lx : lexer) : outcome lexer :=
  match stack lx with
  | top :: rest => Ok (set_stack ((top +:+ s) :: rest) lx)
  | [] => Raise (Foreign IndexError)
  end.

Definition do_AppendArg (str : string) (lx : lexer) : outcome lexer :=
  append_top str lx.

Definition do_Escape (str : string) (lx : lexer) : outcome lexer :=
  append_top (escape_value str) lx.

Definition do_StartExpression (lx : lexer) : outcome lexer :=
  Ok (set_stack (EmptyString :: stack lx) lx).

Definition do_EndLiteralExpression (lx : lexer) : outcome lexer :=
  if (length (stack lx) <=? 1)%nat
  then Raise (Unbalanced UnbalancedLiteral (processed_buffer lx))
  else match stack lx with
       | arg :: rest => append_top arg (set_stack rest lx)
       | [] => Raise (Foreign IndexError)
       end.

(** The loop of [Filter] over [match.group(1).split(",")]. *)
Fixpoint apply_filters (names : list string) (arg : pyobj) : result pyobj :=
  match names with
  | [] => Ok arg
  | filter_name :: names' =>
      match classes_by_name H filter_name with
      | None => Raise (RuntimeError ("Unknown filter function " +:+ filter_name))
      | Some filter_object =>
          let! arg' := filter_object arg in apply_filters names' arg'
      end
  end.

Definition do_Filter (ps : list string) (lx : lexer) : outcome lexer :=
  match stack lx with
  | [] => Raise (Foreign IndexError)
  | arg :: rest =>
      let! arg' := from_callee (apply_filters (split "," (group 1 ps)) (PyStr arg)) in
      match arg' with
      | PyStr s => append_top s (set_stack rest lx)
      | _ => match rest with
             | [] => Raise (Foreign IndexError)
             | _ => Raise (Foreign TypeError)
             end
      end
  end.

Definition do_ExpandArg (lx : lexer) : outcome lexer :=
  if (length (stack lx) <=? 1)%nat
  then Raise (Unbalanced UnbalancedParenthesis (processed_buffer lx))
  else match stack lx with
       | [] => Raise (Foreign IndexError)
       | parameter_name :: rest =>
           let parameter_name :=
             if contains "." parameter_name then parameter_name
             else py_str default_section +:+ "." +:+ parameter_name in
           let! final_value := from_callee (config_getitem H parameter_name) in
           let final_value :=
             match final_value with
             | PyNone => PyStr EmptyString
             | v => v
             end in
           let! found := from_callee (config_FindTypeInfo H parameter_name) in
           let type_info_obj :=
             match found with
             | Some t => t
             | None => String_default H
             end in
           append_top (ToString type_info_obj final_value) (set_stack rest lx)
       end.

(** [lexer.Lexer.PushState] and [PopState]. *)
Definition do_PushState (lx : lexer) : outcome lexer :=
  Ok (set_state (state lx) (state lx :: state_stack lx) lx).

Definition do_PopState (lx : lexer) : outcome (lexer * option string) :=
  match state_stack lx with
  | s :: ss => Ok (set_state s ss lx, Some s)
  | [] =>
      Raise (Foreign (ConfigFormatError
        (while_parsing parameter
           "Tried to pop the state but failed - possible recursion error")))
  end.

(** One callback; the second component is what the callback returns
    ([possible_next_state]). *)
Definition run_action (a : action) (ps : list string) (lx : lexer)
  : outcome (lexer * option string) :=
  let none (r : outcome lexer) := let! lx' := r in Ok (lx', None) in
  match a with
  | AppendArg => none (do_AppendArg (group0 ps) lx)
  | Escape => none (do_Escape (group0 ps) lx)
  | EndLiteralExpression => none (do_EndLiteralExpression lx)
  | PopState => do_PopState lx
  | StartExpression => none (do_StartExpression lx)
  | PushState => none (do_PushState lx)
  | Filter => none (do_Filter ps lx)
  | ExpandArg => none (do_ExpandArg lx)
  end.

Definition truthy_state (o : option string) : bool :=
  match o with
  | Some (String _ _) => true
  | _ => false
  end.

Fixpoint run_actions (acts : list action) (ps : list string)
         (lx : lexer) (nxt : option string) : outcome (lexer * option string) :=
  match acts with
  | [] => Ok (lx, nxt)
  | a :: acts' =>
      let! (lx', possible_next_state) := run_action a ps lx in
      run_actions acts' ps lx'
        (if truthy_state possible_next_state then possible_next_state else nxt)
  end.

(** *** The lexer driver

    Modelled from the spec: the base class [lexer.Lexer] ([NextToken],
    [Close], [PushState], [PopState]) is not part of the sources.  The
    evaluator reads the value left to right; at each point the first
    token of the table whose state pattern fits the current state and
    whose pattern matches the front of the buffer is taken, its text is
    consumed, its callbacks run in order, and the state changes to the
    one a callback returns or else to the token's [next_state]. *)

(** [token.state_regex.match(current_state)], compiled with [re.I]. *)
Definition applies (t : Token) (current_state : string) : bool :=
  match state_regex t with
  | None => true
  | Some r => startswith (lower r) (lower current_state)
  end.

Fixpoint select_token (current_state buf : string) (ts : list Token)
  : option (Token * list string * string) :=
  match ts with
  | [] => None
  | t :: ts' =>
      if applies t current_state then
        match re_match (tregex t) buf with
        | Some (ps, rest) => Some (t, ps, rest)
        | None => select_token current_state buf ts'
        end
      else select_token current_state buf ts'
  end.

(** [NextToken]: [Ok None] when the buffer is empty (Python returns
    [None]), otherwise the lexer after one token. *)
Definition NextToken (lx : lexer) : outcome (option lexer) :=
  match buffer lx with
  | EmptyString => Ok None
  | _ =>
      match select_token (state lx) (buffer lx) tokens with
      | Some (t, ps, rest) =>
          let! (lx', nxt) :=
            run_actions (actions t) ps (consume (group0 ps) rest lx)
                        (next_state t) in
          Ok (Some (if truthy_state nxt
                    then set_state (py_str nxt) (state_stack lx') lx'
                    else lx'))
      | None =>
          Raise (Foreign (ConfigFormatError
            (while_parsing parameter ("Lexer stuck at state " +:+ state lx))))
      end
  end.

(** [Close]: [while self.NextToken(): if not self.buffer: return]. *)
Fixpoint Close (fuel : nat) (lx : lexer) : outcome lexer :=
  match fuel with
  | O => OutOfFuel
  | S fuel' =>
      let! next := NextToken lx in
      match next with
      | None => Ok lx
      | Some lx' =>
          match buffer lx' with
          | EmptyString => Ok lx'
          | _ => Close fuel' lx'
          end
      end
  end.

(** [StringInterpolator.__init__]. *)
Definition new_lexer (data : string) : lexer :=
  {| buffer := data; state := "INITIAL"; state_stack := [];
     processed_buffer := EmptyString; stack := [EmptyString] |}.

(** After [Close]: [if len(self.stack) != 1: raise lexer.ParseError(...)],
    else [self.stack[0]]. *)
Definition finish (lx : lexer) : outcome string :=
  match stack lx with
  | [s] => Ok s
  | _ => Raise (Unbalanced NestedNotBalanced (processed_buffer lx))
  end.

(** [StringInterpolator(data, ...).Parse()].  Every token consumes at
    least one character of a non-empty buffer, so the length of the data
    bounds the number of turns of the loop in [Close]. *)
Definition Parse (data : string) : outcome string :=
  let! lx := Close (S (String.length data)) (new_lexer data) in
  finish lx.
End Interpolator.

(** The Python exception an evaluation ends with: the parse errors of the
    callbacks have already gone through [Error] inside [NextToken]; the one
    raised by [Parse] leaves as a [lexer.ParseError]. *)
Definition raised (parameter : option string) (e : lexerr) : exn :=
  match e with
  | Unbalanced NestedNotBalanced p =>
      ParseError (imbalance_message NestedNotBalanced p)
  | Unbalanced k p =>
      ConfigFormatError (while_parsing parameter (imbalance_message k p))
  | Foreign e => e
  end.

Definition to_result {A} (parameter : option string) (o : outcome A) : result A :=
  match o with
  | Ok a => Ok a
  | Raise e => Raise (raised parameter e)
  | OutOfFuel => OutOfFuel
  end.

(** ** Filters *)

(** What the module reads from the process it runs in, and the classes of
    [type_info] it instantiates: [type_info.String(name=...)], the file
    system as seen by [open(path, "rb")], [os.environ], [flags.FLAGS] and
    the base64 codec. *)
Inductive opened : Type :=
| FileData (content : string)
| IOError (msg : string).

Record externals : Type := {
  String_ : option string -> type_info;
  open_rb : string -> opened;
  os_environ : gmap string string;
  FLAGS : gmap string pyobj;
  base64_decode : string -> result string
}.

(** [fd.read(size)]: the first [size] bytes, or all of them if fewer. *)
Definition read (size : Z) (content : string) : string :=
  substring 0 (Z.to_nat size) content.

Section Filters.
Variable X : externals.

(** [ConfigFilter.Filter] (the filters "identity" and "literal"). *)
Definition ConfigFilter_Filter (data : pyobj) : result pyobj := Ok data.

Definition Lower_Filter (data : pyobj) : result pyobj :=
  match data with
  | PyStr s => Ok (PyStr (lower s))
  | _ => Raise AttributeError
  end.

Definition Upper_Filter (data : pyobj) : result pyobj :=
  match data with
  | PyStr s => Ok (PyStr (upper s))
  | _ => Raise AttributeError
  end.

(** [Filename.Filter]:
    [try: return open(data, "rb").read(1024000)]
    [except IOError as e: raise FilterError(e)]. *)
Definition Filename_Filter (data : pyobj) : result pyobj :=
  match data with
  | PyStr path =>
      match open_rb X path with
      | FileData content => Ok (PyStr (read 1024000 content))
      | IOError e => Raise (FilterError e)
      end
  | _ => Raise TypeError
  end.

Definition Base64_Filter (data : pyobj) : result pyobj :=
  match data with
  | PyStr s => let! r := base64_decode X s in Ok (PyStr r)
  | _ => Raise AttributeError
  end.

(** [os.environ.get(data.upper(), "")]. *)
Definition Env_Filter (data : pyobj) : result pyobj :=
  match data with
  | PyStr s => Ok (PyStr (default EmptyString (os_environ X !! upper s)))
  | _ => Raise AttributeError
  end.

(** [getattr(flags.FLAGS, data)]. *)
Definition Flags_Filter (data : pyobj) : result pyobj :=
  match data with
  | PyStr s =>
      match FLAGS X !! s with
      | Some v => Ok v
      | None => Raise AttributeError
      end
  | _ => Raise TypeError
  end.

(** [ConfigFilter.classes_by_name.get(filter_name)], each class already
    instantiated and reduced to its [Filter] method; [expand] is
    [Expand.Filter], which needs the configuration. *)
Definition builtin_filters (expand : pyobj -> result pyobj) (filter_name : string)
  : option (pyobj -> result pyobj) :=
  if String.eqb filter_name "identity" then Some ConfigFilter_Filter
  else if String.eqb filter_name "literal" then Some ConfigFilter_Filter
  else if String.eqb filter_name "lower" then Some Lower_Filter
  else if String.eqb filter_name "upper" then Some Upper_Filter
  else if String.eqb filter_name "file" then Some Filename_Filter
  else if String.eqb filter_name "base64" then Some Base64_Filter
  else if String.eqb filter_name "env" then Some Env_Filter
  else if String.eqb filter_name "expand" then Some expand
  else if String.eqb filter_name "flags" then Some Flags_Filter
  else None.
End Filters.

(** ** [GrrConfigManager] *)

(** The layers of one manager: [self.environment], [self.raw_data], and the
    class-level [defaults] and [type_infos]. *)
Record config : Type := {
  environment : gmap string pyobj;
  raw_data : gmap string (gmap string string);
  defaults : gmap string (gmap string pyobj);
  type_infos : gmap string type_info
}.

Definition set_raw_data (r : gmap string (gmap string string)) (cfg : config) : config :=
  {| environment := environment cfg; raw_data := r;
     defaults := defaults cfg; type_infos := type_infos cfg |}.

Definition set_environment (e : gmap string pyobj) (cfg : config) : config :=
  {| environment := e; raw_data := raw_data cfg;
     defaults := defaults cfg; type_infos := type_infos cfg |}.

(** [GrrConfigManager()]: a manager with nothing loaded or declared. *)
Definition new_config : config :=
  {| environment := ∅; raw_data := ∅; defaults := ∅; type_infos := ∅ |}.

(** [d.get(k)] on a dictionary with string keys, for an arbitrary key
    object: other hashable objects are never found, lists and dictionaries
    are unhashable. *)
Definition dict_get {V} (d : gmap string V) (k : pyobj) : result (option V) :=
  match k with
  | PyStr s => Ok (d !! s)
  | PyList _ | PyDict _ => Raise TypeError
  | _ => Ok None
  end.

Fixpoint items_get (key : string) (d : list (string * pyobj)) : option pyobj :=
  match d with
  | [] => None
  | (k, v) :: d' => if String.eqb k key then Some v else items_get key d'
  end.

(** [o.get(key)] for an object found in a layer: only dictionaries have
    the method. *)
Definition obj_get (o : option pyobj) (key : string) : result pyobj :=
  match o with
  | None => Ok PyNone                       (* the [{}] default *)
  | Some (PyDict d) => Ok (default PyNone (items_get key d))
  | Some _ => Raise AttributeError
  end.

Definition is_None (v : pyobj) : bool :=
  match v with
  | PyNone => true
  | _ => false
  end.

(** Truth value of an object, as tested by [if x:]. *)
Definition truthy (v : pyobj) : bool :=
  match v with
  | PyNone => false
  | PyStr s => negb (String.eqb s EmptyString)
  | PyBool b => b
  | PyInt z => negb (Z.eqb z 0)
  | PyList l => match l with [] => false | _ => true end
  | PyDict d => match d with [] => false | _ => true end
  end.

(** [str(x)] for the hashable objects. *)
Definition str_of (v : pyobj) : string :=
  match v with
  | PyNone => "None"
  | PyStr s => s
  | PyBool true => "True"
  | PyBool false => "False"
  | PyInt z => pretty z
  | PyList _ | PyDict _ => EmptyString
  end.

Definition inherit_key : string := "@inherit_from_section".

(** [_GetSectionName]. *)
Definition _GetSectionName (name : string) : result (string * string) :=
  match split1 "." name with
  | Some (section, key) => Ok (section, key)
  | None => Raise (RuntimeError "Section not specified")
  end.

(** The three layers as [_GetValue] reads them. *)
Definition raw_value (cfg : config) (section_name : pyobj) (key : string)
  : result pyobj :=
  let! sec := dict_get (raw_data cfg) section_name in
  Ok (match sec with
      | Some d => match d !! key with Some s => PyStr s | None => PyNone end
      | None => PyNone
      end).

Definition environment_value (cfg : config) (section_name : pyobj) (key : string)
  : result pyobj :=
  let! sec := dict_get (environment cfg) section_name in
  obj_get sec key.

Definition defaults_value (cfg : config) (section_name : pyobj) (key : string)
  : result pyobj :=
  let! sec := dict_get (defaults cfg) section_name in
  Ok (match sec with
      | Some d => default PyNone (d !! key)
      | None => PyNone
      end).

(** [_GetValue]. *)
Fixpoint _GetValue (fuel : nat) (cfg : config) (section_name : pyobj) (key : string)
  : result pyobj :=
  match fuel with
  | O => OutOfFuel
  | S fuel' =>
      (* Try to get it from the file data first. *)
      let! value := raw_value cfg section_name key in
      (* Fall back to the environment. *)
      let! value :=
        if is_None value then environment_value cfg section_name key
        else Ok value in
      (* Or else try the defaults. *)
      let! value :=
        if is_None value then defaults_value cfg section_name key
        else Ok value in
      if is_None value && negb (startswith "@" key) then
        (* Maybe its inherited? *)
        let! inherited_from := _GetValue fuel' cfg section_name inherit_key in
        if negb (is_None inherited_from)
        then _GetValue fuel' cfg inherited_from key
        else Ok value
      else Ok value
  end.

(** [_FindTypeInfo]. *)
Fixpoint _FindTypeInfo (fuel : nat) (cfg : config) (section_name : pyobj) (key : string)
  : result (option type_info) :=
  match fuel with
  | O => OutOfFuel
  | S fuel' =>
      match (if contains "." key then split1 "." key else None) with
      | Some (section_name', key') =>
          _FindTypeInfo fuel' cfg (PyStr section_name') key'
      | None =>
          let! raw_section := dict_get (raw_data cfg) section_name in
          let! section :=
            match raw_section with
            | Some d =>
                if bool_decide (d = ∅)
                then dict_get (defaults cfg) section_name
                else Ok (Some (PyStr <$> d))
            | None => dict_get (defaults cfg) section_name
            end in
          match section with
          | None => Ok None
          | Some section =>
              match type_infos cfg !! (str_of section_name +:+ "." +:+ key) with
              | Some t => Ok (Some t)
              | None =>
                  (* Maybe its inherited? *)
                  let inherited_from := default PyNone (section !! inherit_key) in
                  if truthy inherited_from
                  then _FindTypeInfo fuel' cfg inherited_from key
                  else Ok None
              end
          end
      end
  end.

(** [FindTypeInfo]. *)
Definition FindTypeInfo (fuel : nat) (cfg : config) (parameter_name : string)
  : result (option type_info) :=
  match split1 "." parameter_name with
  | Some (section, parameter) => _FindTypeInfo fuel cfg (PyStr section) parameter
  | None => Ok None
  end.

(** [str.splitlines()] on a byte string: lines end at LF, CR or CR LF. *)
Fixpoint splitlines_from (cur : string) (s : string) : list string :=
  match s with
  | EmptyString =>
      match cur with
      | EmptyString => []
      | _ => [cur]
      end
  | String c rest =>
      if ascii_eqb c newline then cur :: splitlines_from EmptyString rest
      else if ascii_eqb c "013"%char then
        match rest with
        | String c' rest' =>
            if ascii_eqb c' newline
            then cur :: splitlines_from EmptyString rest'
            else cur :: splitlines_from EmptyString rest
        | EmptyString => cur :: splitlines_from EmptyString rest
        end
      else splitlines_from (cur +:+ String c EmptyString) rest
  end.

Definition splitlines (s : string) : list string := splitlines_from EmptyString s.

(** [sep.join(l)]. *)
Fixpoint join (sep : string) (l : list string) : string :=
  match l with
  | [] => EmptyString
  | [x] => x
  | x :: l' => x +:+ sep +:+ join sep l'
  end.

(** [NewlineFixup]. *)
Definition NewlineFixup (input_data : pyobj) : pyobj :=
  match input_data with
  | PyStr data =>
      let newline_after := ["DEK-Info:"] in
      let result_lines :=
        flat_map
          (fun line =>
             line :: flat_map (fun nl => if startswith nl line
                                         then [EmptyString] else [])
                              newline_after)
          (splitlines data) in
      PyStr (join (String newline EmptyString) result_lines)
  | _ => input_data
  end.

Section Engine.
Variable X : externals.

(** The body of [Get], with [self.InterpolateValue] left open. *)
Definition Get_with
    (InterpolateValue_ : pyobj -> type_info -> option string -> result pyobj)
    (fuel : nat) (cfg : config) (name : string) (verify environ : bool)
  : result pyobj :=
  match (if environ then environment cfg !! name else None) with
  | Some return_value => Ok return_value
  | None =>
      let! (section_name, key) := _GetSectionName name in
      let! found := _FindTypeInfo fuel cfg (PyStr section_name) key in
      let type_info_obj :=
        match found with
        | Some t => t
        | None => String_ X (Some name)
        end in
      let! raw := _GetValue fuel cfg (PyStr section_name) key in
      let value := NewlineFixup raw in
      let attempt :=
        let! return_value :=
          InterpolateValue_ value type_info_obj (Some section_name) in
        let! _ :=
          if verify && negb (startswith "__" key)
          then Validate type_info_obj return_value
          else Ok tt in
        Ok return_value in
      (* except (lexer.ParseError, type_info.TypeValueError) as e *)
      match attempt with
      | Raise (ParseError e) =>
          Raise (ConfigFormatError (while_parsing (Some name) e))
      | Raise (TypeValueError e) =>
          Raise (ConfigFormatError (while_parsing (Some name) e))
      | r => r
      end
  end.

(** [InterpolateValue]; the interpolator it starts calls back into the
    manager ([self.config[...]], [FindTypeInfo], the [expand] filter). *)
Fixpoint InterpolateValue (fuel : nat) (cfg : config) (value : pyobj)
         (type_info_obj : type_info) (default_section : option string)
  : result pyobj :=
  match value with
  | PyStr data =>
      match fuel with
      | O => OutOfFuel
      | S fuel' =>
          let self :=
            {| config_getitem := fun name =>
                 Get_with (InterpolateValue fuel' cfg) fuel' cfg name false true;
               config_FindTypeInfo := FindTypeInfo fuel' cfg;
               classes_by_name :=
                 builtin_filters X
                   (fun data => InterpolateValue fuel' cfg data (String_ X None) None);
               String_default := String_ X None |} in
          let! value' :=
            to_result (ti_name type_info_obj)
              (Parse self default_section (ti_name type_info_obj) data) in
          FromString type_info_obj value'
      end
  | _ => Ok value
  end.

(** [Get]. *)
Definition Get (fuel : nat) (cfg : config) (name : string) (verify environ : bool)
  : result pyobj :=
  Get_with (InterpolateValue fuel cfg) fuel cfg name verify environ.

(** The interpolator object [InterpolateValue] builds when the manager
    still has [fuel] levels of recursion to spend. *)
Definition manager_host (fuel : nat) (cfg : config) : host :=
  {| config_getitem := fun name => Get fuel cfg name false true;
     config_FindTypeInfo := FindTypeInfo fuel cfg;
     classes_by_name :=
       builtin_filters X
         (fun data => InterpolateValue fuel cfg data (String_ X None) None);
     String_default := String_ X None |}.

(** [GetRaw]. *)
Definition GetRaw (fuel : nat) (cfg : config) (name : string) : result pyobj :=
  match environment cfg !! name with
  | Some v => Ok v
  | None =>
      let! (section_name, key) := _GetSectionName name in
      _GetValue fuel cfg (PyStr section_name) key
  end.

(** [SetEnv(key, value)] and [GetEnv]. *)
Definition SetEnv (key : string) (value : pyobj) (cfg : config) : config :=
  set_environment (<[key := value]> (environment cfg)) cfg.

Definition GetEnv (cfg : config) (key : string) : pyobj :=
  default PyNone (environment cfg !! key).

(** [self.raw_data.setdefault(section, {})] followed by an update of the
    dictionary it returns: the dictionary is the one stored in
    [raw_data], so the update is seen there. *)
Definition section_data (cfg : config) (section : string) : gmap string string :=
  default ∅ (raw_data cfg !! section).

Definition store_section (section : string) (d : gmap string string)
           (cfg : config) : config :=
  set_raw_data (<[section := d]> (raw_data cfg)) cfg.

(** [SetRaw]. *)
Definition SetRaw (fuel : nat) (cfg : config) (name : string) (value : pyobj)
  : config * result unit :=
  match _GetSectionName name with
  | Ok (section, key) =>
      let d := section_data cfg section in
      let cfg' := store_section section d cfg in
      match _FindTypeInfo fuel cfg' (PyStr section) key with
      | Ok found =>
          let type_info_obj :=
            match found with
            | Some t => t
            | None => String_ X (Some name)
            end in
          (store_section section (<[key := ToString type_info_obj value]> d) cfg,
           Ok tt)
      | Raise e => (cfg', Raise e)
      | OutOfFuel => (cfg', OutOfFuel)
      end
  | Raise e => (cfg, Raise e)
  | OutOfFuel => (cfg, OutOfFuel)
  end.

(** [Set]. *)
Definition Set_ (fuel : nat) (cfg : config) (name : string) (value : pyobj)
           (verify : bool) : config * result unit :=
  match _GetSectionName name with
  | Ok (section, key) =>
      if String.eqb (lower section) "environment"
      then (cfg, Raise (RuntimeError "Use SetEnv for setting environment variables."))
      else
        (* Check if the new value conforms with the type_info. *)
        match _FindTypeInfo fuel cfg (PyStr section) key with
        | Ok found =>
            let type_info_obj :=
              match found with
              | Some t => t
              | None => String_ X (Some name)
              end in
            let d := section_data cfg section in
            let d' := if is_None value then delete key d else d in
            let checked :=
              if is_None value then Ok tt
              else if verify then Validate type_info_obj value
              else Ok tt in
            match checked with
            | Ok _ =>
                let value' := ToString type_info_obj value in
                (store_section section (<[key := EscapeString value']> d') cfg,
                 Ok tt)
            | Raise e => (store_section section d' cfg, Raise e)
            | OutOfFuel => (store_section section d' cfg, OutOfFuel)
            end
        | Raise e => (cfg, Raise e)
        | OutOfFuel => (cfg, OutOfFuel)
        end
  | Raise e => (cfg, Raise e)
  | OutOfFuel => (cfg, OutOfFuel)
  end.

(** [MergeData]: the incoming data is what a parser's [RawData()]
    returns, a dictionary of dictionaries of strings. *)
Definition merge_section (data section_dict : gmap string string)
  : gmap string string :=
  map_fold (fun k v d => <[k := v]> d) section_dict data.

Definition MergeData (incoming : gmap string (gmap string string)) (cfg : config)
  : config :=
  set_raw_data
    (map_fold
       (fun section data raw =>
          let section_dict := default ∅ (raw !! section) in
          <[section := merge_section data section_dict]> raw)
       (raw_data cfg) incoming)
    cfg.
(** Modelled from the spec: the class of [type_infos],
    [type_info.TypeDescriptorSet], is not part of the sources; [Append]
    registers a descriptor under its fully-qualified name, which is the
    name [_FindTypeInfo] looks it up by.  The rest of [AddOption] is as
    in the source; the attribute [descriptor.section] that the method
    also sets is read by no function modelled here. *)
Definition AddOption (descriptor : type_info) (cfg : config)
  : config * result unit :=
  match ti_name descriptor with
  | None => (cfg, Raise AttributeError)
  | Some name =>
      match _GetSectionName name with
      | Ok (section, key) =>
          ({| environment := environment cfg;
              raw_data := raw_data cfg;
              (* self.defaults.setdefault(section, {})[key] = GetDefault() *)
              defaults :=
                <[section := <[key := GetDefault descriptor]>
                               (default ∅ (defaults cfg !! section))]>
                  (defaults cfg);
              (* self.type_infos.Append(descriptor) *)
              type_infos := <[name := descriptor]> (type_infos cfg) |},
           Ok tt)
      | Raise e => (cfg, Raise e)
      | OutOfFuel => (cfg, OutOfFuel)
      end
  end.

End Engine.

(** ** Sample collaborators

    Modelled from the spec: [type_info.String] is not part of the sources.
    Per the descriptor contract (validate, string codec, default) a string
    descriptor accepts strings, renders a value with [str] and parses a
    string as itself.  It is only used to run the model on concrete
    inputs; the theorems below hold for every [externals]. *)
Definition sample_String (name : option string) : type_info :=
  {| ti_name := name;
     Validate := fun v =>
       match v with
       | PyStr _ => Ok tt
       | _ => Raise (TypeValueError "not a valid string")
       end;
     ToString := str_of;
     FromString := fun s => Ok (PyStr s);
     GetDefault := PyStr EmptyString |}.

(** A process with one readable file, no environment variables and no
    flags. *)
Definition sample_externals : externals :=
  {| String_ := sample_String;
     open_rb := fun path =>
       if String.eqb path "/etc/motd" then FileData "hello"
       else IOError "No such file or directory";
     os_environ := ∅;
     FLAGS := ∅;
     base64_decode := fun _ => Raise (OtherError "binascii.Error") |}.

(** A descriptor that rejects every value and cannot parse any string. *)
Definition strict_type_info : type_info :=
  {| ti_name := Some "Sec.k";
     Validate := fun _ => Raise (TypeValueError "rejected");
     ToString := str_of;
     FromString := fun _ => Raise (TypeValueError "unparsable");
     GetDefault := PyNone |}.

(** ** Vocabulary of the statements *)

(** [raw_data[section][key]], when both exist. *)
Definition raw_lookup (raw : gmap string (gmap string string))
           (section key : string) : option string :=
  raw !! section ≫= (.!! key).

(** The descriptor [Get] and [Set] work with: the declared one, or a string
    descriptor made for the name. *)
Definition descriptor_for (X : externals) (found : option type_info)
           (name : string) : type_info :=
  match found with
  | Some t => t
  | None => String_ X (Some name)
  end.

(** The first value found in the order Raw Data, Environment, Defaults,
    [PyNone] when the three have none (the words of the specification). *)
Definition first_found (cfg : config) (section_name : pyobj) (key : string)
  : result pyobj :=
  let! r := raw_value cfg section_name key in
  match r with
  | PyNone =>
      let! e := environment_value cfg section_name key in
      match e with
      | PyNone => defaults_value cfg section_name key
      | _ => Ok e
      end
  | _ => Ok r
  end.

(** The lookup as the specification words it: a value of the section's own
    layers is the answer; failing that, a key with a leading [@] has no
    value, and any other key has the value it has in the section named by
    the section's inheritance marker, if there is one. *)
Inductive resolves (cfg : config) : pyobj -> string -> pyobj -> Prop :=
| resolves_own section_name key v :
    first_found cfg section_name key = Ok v ->
    is_None v = false ->
    resolves cfg section_name key v
| resolves_sentinel section_name key :
    first_found cfg section_name key = Ok PyNone ->
    startswith "@" key = true ->
    resolves cfg section_name key PyNone
| resolves_orphan section_name key :
    first_found cfg section_name key = Ok PyNone ->
    startswith "@" key = false ->
    resolves cfg section_name inherit_key PyNone ->
    resolves cfg section_name key PyNone
| resolves_inherited section_name key inherited_from v :
    first_found cfg section_name key = Ok PyNone ->
    startswith "@" key = false ->
    resolves cfg section_name inherit_key inherited_from ->
    is_None inherited_from = false ->
    resolves cfg inherited_from key v ->
    resolves cfg section_name key v.

(** The longest prefix of characters of a class, and what follows it. *)
Fixpoint span (cs : charset) (s : string) : string * string :=
  match s with
  | EmptyString => (EmptyString, EmptyString)
  | String c s' =>
      if in_charset c cs
      then (String c (fst (span cs s')), snd (span cs s'))
      else (EmptyString, s)
  end.

(** The class of the token that globs plain text, [[^()%{}|\\]]. *)
Definition text_class : charset :=
  NoneOf ["("; ")"; "%"; "{"; "}"; "|"; backslash]%char.

(** The class of the token that takes the body of a literal, [[^}]]. *)
Definition literal_class : charset := NoneOf ["}"%char].

(** The entries of the table by position. *)
Definition token_at (n : nat) : Token :=
  nth n tokens (mkToken None [] [] None).

(** The tokens that apply in the state [INITIAL], in table order. *)
Definition initial_tokens : list Token :=
  [token_at 1; token_at 4; token_at 5; token_at 6; token_at 7; token_at 8;
   token_at 9; token_at 10].

(** The lexer outside of any expression: state [INITIAL], nothing pushed,
    one accumulator. *)
Definition outer (buf pb acc : string) : lexer :=
  {| buffer := buf; state := "INITIAL"; state_stack := [];
     processed_buffer := pb; stack := [acc] |}.

Definition consuming (r : regex) : Prop :=
  match r with
  | One _ :: _ | Many _ :: _ => True
  | _ => False
  end.

(** In every entry of the table the callbacks that can raise a parse error
    come first: they see the stack as the token found it. *)
Definition guarded_head (acts : list action) : Prop :=
  match acts with
  | [] => True
  | _ :: later =>
      ~ In ExpandArg later /\ ~ In EndLiteralExpression later
  end.

(** The token the lexer reads next triggers the callback [a]. *)
Definition next_action (lx : lexer) (a : action) : Prop :=
  buffer lx <> EmptyString /\
  exists t ps rest,
    select_token (state lx) (buffer lx) tokens = Some (t, ps, rest) /\
    In a (actions t).

(** The three situations of the specification: a [)] is read with no
    expansion open, a [}] closes a literal with none open, the input ends
    with more than one accumulator on the stack. *)
Definition unbalanced_at (k : imbalance) (lx : lexer) : Prop :=
  match k with
  | UnbalancedParenthesis =>
      next_action lx ExpandArg /\ (length (stack lx) <= 1)%nat
  | UnbalancedLiteral =>
      next_action lx EndLiteralExpression /\ (length (stack lx) <= 1)%nat
  | NestedNotBalanced =>
      buffer lx = EmptyString /\ (1 < length (stack lx))%nat
  end.

(** The two shapes of a lexer in the course of an evaluation: outside of
    any literal, or inside the one literal that is open, whose accumulator
    sits on top of at least one other. *)
Definition well_nested (lx : lexer) : Prop :=
  (state lx = "INITIAL" /\ state_stack lx = [] /\ stack lx <> []) \/
  (state lx = "Literal" /\ state_stack lx = ["INITIAL"] /\
   (2 <= length (stack lx))%nat).

(** The lexer states an evaluation goes through, one token at a time. *)
Inductive reaches (H : host) (default_section parameter : option string)
  : lexer -> lexer -> Prop :=
| reaches_here lx : reaches H default_section parameter lx lx
| reaches_next lx lx1 lx2 :
    NextToken H default_section parameter lx = Ok (Some lx1) ->
    reaches H default_section parameter lx1 lx2 ->
    reaches H default_section parameter lx lx2.

(** What is left of the loop of [Close] once a token has been read. *)
Definition settle (H : host) (default_section parameter : option string)
           (fuel : nat) (lx : lexer) : outcome lexer :=
  match buffer lx with
  | EmptyString => Ok lx
  | _ => Close H default_section parameter fuel lx
  end.

(** A file of [n] bytes. *)
Fixpoint zeros (n : nat) : string :=
  match n with
  | O => EmptyString
  | S n' => String "000"%char (zeros n')
  end.

(** The process in which every path opens on [content]. *)
Definition one_file_externals (content : string) : externals :=
  {| String_ := sample_String;
     open_rb := fun _ => FileData content;
     os_environ := ∅;
     FLAGS := ∅;
     base64_decode := fun _ => Raise (OtherError "binascii.Error") |}.

(** A manager whose raw value for [Sec.k] is unbalanced, whose descriptor
    rejects everything, and whose environment overrides [Sec.k]. *)
Definition overridden_config : config :=
  {| environment := {["Sec.k" := PyStr "%(x"]};
     raw_data := {["Sec" := {["k" := ")"]}]};
     defaults := ∅;
     type_infos := {["Sec.k" := strict_type_info]} |}.

(** A manager whose raw value for [Sec.k] misses its close. *)
Definition unbalanced_config : config :=
  {| environment := ∅;
     raw_data := {["Sec" := {["k" := "%(abc"]}]};
     defaults := ∅;
     type_infos := ∅ |}.

(** A manager whose raw value for [Sec.k] ends a filter that was never
    opened. *)
Definition filter_config : config :=
  {| environment := ∅;
     raw_data := {["Sec" := {["k" := "x|lower)"]}]};
     defaults := ∅;
     type_infos := ∅ |}.

(** Section [A] inherits from section [B], which defines [key]. *)
Definition inheriting_config : config :=
  {| environment := ∅;
     raw_data := {["A" := {["@inherit_from_section" := "B"]};
                   "B" := {["key" := "v"]}]};
     defaults := ∅;
     type_infos := ∅ |}.

(** The two sources laid one over the other: where both have a section,
    the keys of the later one win. *)
Definition overlay (S2 S1 : gmap string (gmap string string))
  : gmap string (gmap string string) :=
  union_with (fun d2 d1 => Some (d2 ∪ d1)) S2 S1.

(** A string without a line break: no LF and no CR. *)
Fixpoint no_linebreak (s : string) : bool :=
  match s with
  | EmptyString => true
  | String c s' =>
      negb (ascii_eqb c newline) && negb (ascii_eqb c "013"%char)
      && no_linebreak s'
  end.

(** The prefix after which [NewlineFixup] puts an empty line. *)
Definition DEK_marker : string := "DEK-Info:".

(** A configuration that knows no parameter and no filter, as an
    interpolator sees it. *)
Definition empty_host : host :=
  {| config_getitem := fun _ => Ok PyNone;
     config_FindTypeInfo := fun _ => Ok None;
     classes_by_name := fun _ => None;
     String_default := sample_String None |}.

(** A string made of characters of one class. *)
Fixpoint all_in (cs : charset) (s : string) : bool :=
  match s with
  | EmptyString => true
  | String c s' => in_charset c cs && all_in cs s'
  end.

(** The full name [ExpandArg] looks up for the text of an expansion: the
    text itself when it holds a dot, otherwise the text qualified with the
    default section. *)
Definition qualified (default_section : option string) (name : string) : string :=
  if contains "." name then name
  else py_str default_section +:+ "." +:+ name.

(** The lexer in the state [INITIAL]. *)
Definition initial (buf : string) (ss : list string) (pb : string)
           (st : list string) : lexer :=
  {| buffer := buf; state := "INITIAL"; state_stack := ss;
     processed_buffer := pb; stack := st |}.

(** What a parameter reference contributes: the value the configuration
    has for the name ([None] counts as the empty string), rendered by the
    descriptor of the name or by [type_info.String()]. *)
Definition reference_outcome (H : host) (parameter : option string)
           (parameter_name : string) : outcome string :=
  let! final_value := from_callee parameter (config_getitem H parameter_name) in
  let! found := from_callee parameter (config_FindTypeInfo H parameter_name) in
  Ok (ToString (match found with
                | Some t => t
                | None => String_default H
                end)
               (match final_value with
                | PyNone => PyStr EmptyString
                | v => v
                end)).

(** Sample configurations and a sample option. *)
Definition two_sections : config :=
  store_section "Other" {["j" := "w"]}
    (store_section "Sec" {["k" := "v"]} new_config).

Definition documented_config : config :=
  {| environment := ∅;
     raw_data := {["Sec" := {["__doc__" := "text"]}]};
     defaults := ∅;
     type_infos := {["Sec.__doc__" := strict_type_info]} |}.

Definition rss_max : type_info :=
  {| ti_name := Some ("Client" +:+ "." +:+ "rss_max");
     Validate := fun _ => Ok tt;
     ToString := str_of;
     FromString := fun s => Ok (PyStr s);
     GetDefault := PyInt 4000 |}.

(** A section that names itself as the section it inherits from. *)
Definition own_heir : config :=
  {| environment := ∅;
     raw_data := {["A" := {["@inherit_from_section" := "A"]}]};
     defaults := ∅; type_infos := ∅ |}.

(** * Properties *)

(** ** Strings *)

Lemma ascii_eqb_eq (a b : ascii) : ascii_eqb a b = true <-> a = b.
Proof. apply Ascii.eqb_eq. Qed.

Lemma ascii_eqb_refl (a : ascii) : ascii_eqb a a = true.
Proof. apply Ascii.eqb_refl. Qed.

Lemma append_cons (c : ascii) (a b : string) :
  String c a +:+ b = String c (a +:+ b).
Proof. reflexivity. Qed.

Lemma append_nil_l (s : string) : EmptyString +:+ s = s.
Proof. reflexivity. Qed.

Lemma append_nil_r (s : string) : s +:+ EmptyString = s.
Proof.
  induction s as [|c s IH]; [reflexivity |].
  now rewrite append_cons, IH.
Qed.

Lemma append_assoc (a b c : string) : (a +:+ b) +:+ c = a +:+ (b +:+ c).
Proof.
  induction a as [|x a IH]; [reflexivity |].
  now rewrite !append_cons, IH.
Qed.

Lemma length_append (a b : string) :
  String.length (a +:+ b) = (String.length a + String.length b)%nat.
Proof.
  induction a as [|x a IH]; [reflexivity |].
  rewrite append_cons. simpl. now rewrite IH.
Qed.

(** ** [EscapeString] *)

Lemma EscapeString_app (a b : string) :
  EscapeString (a +:+ b) = EscapeString a +:+ EscapeString b.
Proof.
  induction a as [|c a IH]; [reflexivity |].
  rewrite append_cons. cbn [EscapeString].
  destruct (char_in c escape_class); rewrite ?append_cons, IH; reflexivity.
Qed.

(** What the substitution does to one character. *)
Lemma EscapeString_char (c : ascii) :
  EscapeString (String c EmptyString) =
  if char_in c escape_class
  then String backslash (String c EmptyString)
  else String c EmptyString.
Proof. cbn [EscapeString]. destruct (char_in c escape_class); reflexivity. Qed.

Lemma escape_class_spec (c : ascii) :
  char_in c escape_class = true <->
  c = backslash \/ c = "%"%char \/ c = ")"%char \/ c = "{"%char \/ c = "}"%char.
Proof.
  unfold char_in, escape_class. simpl. rewrite !orb_true_iff, !ascii_eqb_eq.
  intuition discriminate.
Qed.

(** C1, where the code departs from the specification: [EscapeString]
    does not put a backslash before an open parenthesis.  The character
    class of the substitution holds the backslash, the percent sign, the
    close parenthesis and both braces, and the open parenthesis is copied
    as it is, wherever it stands. *)
Theorem EscapeString_open_paren_unescaped :
  EscapeString "(" = "(" /\
  EscapeString "%(a)" = String backslash "%(a" +:+ String backslash ")" /\
  forall a b : string,
    EscapeString (a +:+ "(" +:+ b) = EscapeString a +:+ "(" +:+ EscapeString b.
Proof.
  split; [reflexivity | split; [reflexivity |]].
  intros a b. now rewrite !EscapeString_app.
Qed.

(** ** Raw data: [Set] and [MergeData] *)

Lemma raw_lookup_store (cfg : config) (section key : string)
      (d : gmap string string) :
  raw_lookup (raw_data (store_section section d cfg)) section key = d !! key.
Proof.
  unfold raw_lookup, store_section. simpl.
  now rewrite lookup_insert_eq.
Qed.

(** A call of [Set] that returns has stored the escaped rendering of the
    value under the key, whatever the value is. *)
Lemma Set_stores_escaped (X : externals) (fuel : nat) (cfg cfg' : config)
      (name : string) (value : pyobj) (verify : bool) :
  Set_ X fuel cfg name value verify = (cfg', Ok tt) ->
  exists section key found,
    _GetSectionName name = Ok (section, key) /\
    _FindTypeInfo fuel cfg (PyStr section) key = Ok found /\
    raw_lookup (raw_data cfg') section key =
      Some (EscapeString
              (ToString (match found with
                         | Some t => t
                         | None => String_ X (Some name)
                         end) value)).
Proof.
  unfold Set_. intros HSet.
  destruct (_GetSectionName name) as [[section key]| |]; try discriminate.
  destruct (String.eqb (lower section) "environment"); try discriminate.
  destruct (_FindTypeInfo fuel cfg (PyStr section) key) as [found| |] eqn:Hfound;
    try discriminate.
  exists section, key, found. split; [reflexivity | split; [exact Hfound |]].
  match type of HSet with
  | (match ?c with _ => _ end) = _ => destruct c; try discriminate
  end.
  injection HSet as <-.
  rewrite raw_lookup_store. apply lookup_insert_eq.
Qed.

(** C2, where the code departs from the specification: [Set(name, None)]
    pops the key and then falls through to
    the store that ends the method, so the key is back in Raw Data, bound
    to the escaped [ToString(None)].  Here the section [Sec] holds [k]
    before the call; the call returns and [k] is still there. *)
Theorem Set_None_leaves_key (X : externals) (verify : bool) :
  let cfg := store_section "Sec" {["k" := "v"]} new_config in
  exists cfg',
    Set_ X 1 cfg "Sec.k" PyNone verify = (cfg', Ok tt) /\
    raw_lookup (raw_data cfg') "Sec" "k" =
      Some (EscapeString (ToString (String_ X (Some "Sec.k")) PyNone)).
Proof.
  intros cfg. eexists. split.
  - unfold Set_. simpl. reflexivity.
  - rewrite raw_lookup_store. apply lookup_insert_eq.
Qed.

Lemma merge_section_lookup (data d : gmap string string) (k : string) :
  merge_section data d !! k =
  match data !! k with
  | Some v => Some v
  | None => d !! k
  end.
Proof.
  unfold merge_section.
  apply (map_fold_weak_ind
           (fun r (m : gmap string string) =>
              r !! k = match m !! k with Some v => Some v | None => d !! k end)).
  - now rewrite lookup_empty.
  - intros i x m r _ IH.
    destruct (decide (i = k)) as [->|Hne].
    + now rewrite !lookup_insert_eq.
    + now rewrite !lookup_insert_ne.
Qed.

Lemma default_empty_lookup (o : option (gmap string string)) (k : string) :
  default ∅ o !! k = o ≫= (.!! k).
Proof. destruct o; simpl; [reflexivity | apply lookup_empty]. Qed.

(** C8: after [MergeData] a parameter has the incoming value when the
    incoming data defines it, and the value it had before otherwise: keys
    are overwritten one by one and a section already present keeps every
    key the incoming data does not mention. *)
Theorem MergeData_lookup (incoming : gmap string (gmap string string))
        (cfg : config) (section key : string) :
  raw_lookup (raw_data (MergeData incoming cfg)) section key =
  match raw_lookup incoming section key with
  | Some v => Some v
  | None => raw_lookup (raw_data cfg) section key
  end.
Proof.
  unfold MergeData, raw_lookup. simpl.
  apply (map_fold_weak_ind
           (fun r (m : gmap string (gmap string string)) =>
              r !! section ≫= (.!! key) =
              match m !! section ≫= (.!! key) with
              | Some v => Some v
              | None => raw_data cfg !! section ≫= (.!! key)
              end)).
  - now rewrite lookup_empty.
  - intros i data m r Hfresh IH.
    destruct (decide (i = section)) as [->|Hne].
    + rewrite !lookup_insert_eq. simpl.
      rewrite merge_section_lookup.
      destruct (data !! key); [reflexivity |].
      rewrite default_empty_lookup, IH, Hfresh. reflexivity.
    + now rewrite !lookup_insert_ne.
Qed.

(** Loading S1 and then S2: S2's value wins where both define the
    parameter. *)
Corollary MergeData_last_wins (S1 S2 : gmap string (gmap string string))
          (cfg : config) (section key v : string) :
  raw_lookup S2 section key = Some v ->
  raw_lookup (raw_data (MergeData S2 (MergeData S1 cfg))) section key = Some v.
Proof. intros HS2. now rewrite MergeData_lookup, HS2. Qed.

(** A section is never emptied or dropped by a merge. *)
Corollary MergeData_keeps (incoming : gmap string (gmap string string))
          (cfg : config) (section key v : string) :
  raw_lookup (raw_data cfg) section key = Some v ->
  raw_lookup incoming section key = None ->
  raw_lookup (raw_data (MergeData incoming cfg)) section key = Some v.
Proof. intros Hold Hinc. now rewrite MergeData_lookup, Hinc. Qed.

(** ** [Get] and the environment *)

(** C10: when [environ] is true and the full name is a key of the
    environment, [Get] returns the stored object as it is, whatever the
    raw data, the descriptors and [verify] are: nothing is interpolated,
    parsed or validated. *)
Theorem Get_environment_as_stored (X : externals) (fuel : nat) (cfg : config)
        (name : string) (verify : bool) (v : pyobj) :
  environment cfg !! name = Some v ->
  Get X fuel cfg name verify true = Ok v.
Proof.
  intros Henv. unfold Get, Get_with. now rewrite Henv.
Qed.

Lemma Get_environment_as_stored_witness :
  Get sample_externals 0 overridden_config "Sec.k" true true = Ok (PyStr "%(x").
Proof.
  apply (Get_environment_as_stored sample_externals 0 overridden_config
           "Sec.k" true (PyStr "%(x")).
  reflexivity.
Defined.

(** ** The [file] filter *)

Lemma substring_0_length (n : nat) (s : string) :
  String.length (substring 0 n s) = Nat.min n (String.length s).
Proof.
  revert n. induction s as [|c s IH]; intros [|n]; simpl; try reflexivity.
  now rewrite IH.
Qed.

Lemma substring_0_prefix (n : nat) (s : string) :
  String.prefix (substring 0 n s) s = true.
Proof.
  revert n. induction s as [|c s IH]; intros [|n]; simpl; try reflexivity.
  rewrite IH. now destruct (ascii_dec c c).
Qed.

Lemma read_length (size : Z) (content : string) :
  (0 <= size)%Z ->
  Z.of_nat (String.length (read size content)) =
  Z.min size (Z.of_nat (String.length content)).
Proof. intros Hsize. unfold read. rewrite substring_0_length. lia. Qed.

Lemma zeros_length (n : nat) : String.length (zeros n) = n.
Proof. induction n as [|n IH]; simpl; [reflexivity | now rewrite IH]. Qed.

Lemma read_sizes_differ (a b : Z) :
  (0 <= a < b)%Z ->
  read a (zeros (Z.to_nat b)) <> read b (zeros (Z.to_nat b)).
Proof.
  intros Hab Heq.
  apply (f_equal String.length) in Heq. apply (f_equal Z.of_nat) in Heq.
  rewrite !read_length, zeros_length in Heq by lia. lia.
Qed.

(** C5, with the limit the code uses: the [file] filter returns the first 1,024,000 bytes of
    the content of the named file, or the whole content when it is
    shorter, and raises [FilterError] when opening or reading fails with
    an [IOError]. *)
Theorem Filename_Filter_reads_1024000 (X : externals) (path : string) :
  (forall content,
      open_rb X path = FileData content ->
      exists out,
        Filename_Filter X (PyStr path) = Ok (PyStr out) /\
        String.prefix out content = true /\
        Z.of_nat (String.length out) =
          Z.min 1024000 (Z.of_nat (String.length content))) /\
  (forall e,
      open_rb X path = IOError e ->
      Filename_Filter X (PyStr path) = Raise (FilterError e)).
Proof.
  split.
  - intros content Hopen. exists (read 1024000 content).
    unfold Filename_Filter. rewrite Hopen.
    split; [reflexivity | split].
    + apply substring_0_prefix.
    + apply read_length. lia.
  - intros e Hopen. unfold Filename_Filter. now rewrite Hopen.
Qed.

Lemma Filename_Filter_reads_1024000_witness :
  (exists out,
      Filename_Filter sample_externals (PyStr "/etc/motd") = Ok (PyStr out) /\
      String.prefix out "hello" = true /\
      Z.of_nat (String.length out) = 5%Z) /\
  Filename_Filter sample_externals (PyStr "/nowhere") =
    Raise (FilterError "No such file or directory").
Proof.
  split.
  - destruct (Filename_Filter_reads_1024000 sample_externals "/etc/motd")
      as [Hread _].
    destruct (Hread "hello" eq_refl) as (out & Hout & Hpre & Hlen).
    exists out. split; [exact Hout | split; [exact Hpre | exact Hlen]].
  - destruct (Filename_Filter_reads_1024000 sample_externals "/nowhere")
      as [_ Hfail].
    apply Hfail. reflexivity.
Defined.

Lemma Filename_Filter_one_file (content path : string) :
  Filename_Filter (one_file_externals content) (PyStr path) =
  Ok (PyStr (read 1024000 content)).
Proof. reflexivity. Qed.

Lemma Ok_PyStr_inj (a b : string) :
  @Ok exn pyobj (PyStr a) = Ok (PyStr b) -> a = b.
Proof. intros Heq. now injection Heq. Qed.

(** C5 as the specification states it fails: a file of 1,048,576 bytes is not returned whole,
    although it is no longer than the bound the specification gives. *)
Lemma Filename_Filter_not_1048576 :
  ~ (forall (X : externals) (path content : string),
        open_rb X path = FileData content ->
        Filename_Filter X (PyStr path) = Ok (PyStr (read 1048576 content))).
Proof.
  intros Hspec.
  apply (read_sizes_differ 1024000 1048576); [lia |].
  generalize (zeros (Z.to_nat 1048576)). intros content.
  specialize (Hspec (one_file_externals content) "f" content eq_refl).
  rewrite Filename_Filter_one_file in Hspec.
  apply Ok_PyStr_inj. exact Hspec.
Qed.

(** ** [_GetValue]: layers and inheritance *)

Lemma _GetValue_unfold (fuel : nat) (cfg : config) (section_name : pyobj)
      (key : string) :
  _GetValue (S fuel) cfg section_name key =
  let! value := first_found cfg section_name key in
  if is_None value && negb (startswith "@" key) then
    let! inherited_from := _GetValue fuel cfg section_name inherit_key in
    if negb (is_None inherited_from)
    then _GetValue fuel cfg inherited_from key
    else Ok value
  else Ok value.
Proof.
  cbn [_GetValue]. unfold first_found.
  destruct (raw_value cfg section_name key) as [r| |]; cbn [bind];
    [| reflexivity | reflexivity].
  destruct r; cbn [is_None bind]; try reflexivity.
  destruct (environment_value cfg section_name key) as [e| |]; cbn [bind];
    [| reflexivity | reflexivity].
  destruct e; cbn [is_None bind]; try reflexivity.
Qed.

Lemma _GetValue_mono (n m : nat) (cfg : config) (section_name : pyobj)
      (key : string) (v : pyobj) :
  (n <= m)%nat ->
  _GetValue n cfg section_name key = Ok v ->
  _GetValue m cfg section_name key = Ok v.
Proof.
  revert m section_name key v.
  induction n as [|n IH]; intros m section_name key v Hle Hrun;
    [discriminate |].
  destruct m as [|m]; [lia |].
  rewrite _GetValue_unfold in *.
  destruct (first_found cfg section_name key) as [value| |]; cbn [bind] in *;
    try discriminate.
  destruct (is_None value && negb (startswith "@" key)); [| exact Hrun].
  destruct (_GetValue n cfg section_name inherit_key) as [inh| |] eqn:Hinh;
    cbn [bind] in *; try discriminate.
  rewrite (IH m _ _ _ ltac:(lia) Hinh). cbn [bind].
  destruct (negb (is_None inh)); [| exact Hrun].
  apply IH; [lia | exact Hrun].
Qed.

Lemma _GetValue_sound (fuel : nat) (cfg : config) (section_name : pyobj)
      (key : string) (v : pyobj) :
  _GetValue fuel cfg section_name key = Ok v ->
  resolves cfg section_name key v.
Proof.
  revert section_name key v.
  induction fuel as [|fuel IH]; intros section_name key v Hrun;
    [discriminate |].
  rewrite _GetValue_unfold in Hrun.
  destruct (first_found cfg section_name key) as [value| |] eqn:Hfirst;
    cbn [bind] in Hrun; try discriminate.
  destruct (is_None value) eqn:Hnone; cbn [andb] in Hrun.
  - assert (value = PyNone) as -> by (destruct value; discriminate || reflexivity).
    destruct (startswith "@" key) eqn:Hat; cbn [negb] in Hrun.
    + injection Hrun as <-. now apply resolves_sentinel.
    + destruct (_GetValue fuel cfg section_name inherit_key) as [inh| |] eqn:Hinh;
        cbn [bind] in Hrun; try discriminate.
      destruct (is_None inh) eqn:Hinh_none; cbn [negb] in Hrun.
      * injection Hrun as <-.
        assert (inh = PyNone) as -> by (destruct inh; discriminate || reflexivity).
        apply resolves_orphan; auto.
      * eapply resolves_inherited; eauto.
  - injection Hrun as <-. now apply resolves_own.
Qed.

Lemma _GetValue_complete (cfg : config) (section_name : pyobj) (key : string)
      (v : pyobj) :
  resolves cfg section_name key v ->
  exists fuel, _GetValue fuel cfg section_name key = Ok v.
Proof.
  induction 1 as [s k v Hfirst Hsome
                 | s k Hfirst Hat
                 | s k Hfirst Hat _ [f Hf]
                 | s k inh v Hfirst Hat _ [f1 Hf1] Hinh _ [f2 Hf2]].
  - exists 1%nat. rewrite _GetValue_unfold, Hfirst. cbn [bind].
    now rewrite Hsome.
  - exists 1%nat. rewrite _GetValue_unfold, Hfirst. cbn [bind is_None andb].
    now rewrite Hat.
  - exists (S f). rewrite _GetValue_unfold, Hfirst. cbn [bind is_None andb].
    rewrite Hat. cbn [negb]. now rewrite Hf.
  - exists (S (Nat.max f1 f2)).
    rewrite _GetValue_unfold, Hfirst. cbn [bind is_None andb].
    rewrite Hat. cbn [negb].
    rewrite (_GetValue_mono f1 (Nat.max f1 f2) _ _ _ _ ltac:(lia) Hf1).
    cbn [bind]. rewrite Hinh. cbn [negb].
    apply (_GetValue_mono f2); [lia | exact Hf2].
Qed.

(** C3: [_GetValue] returns [v] exactly when [v] is the first value found in
    the order Raw Data, Environment, Defaults, or, the three being empty
    and the key not starting with [@], the result of the same lookup in
    the section named by the section's [@inherit_from_section] value; for
    a key starting with [@] the answer is that of the section's own layers
    for any recursion budget, so inheritance is never followed. *)
Theorem _GetValue_layers_then_inheritance (cfg : config) (section_name : pyobj)
        (key : string) :
  (forall v,
      (exists fuel, _GetValue fuel cfg section_name key = Ok v) <->
      resolves cfg section_name key v) /\
  (forall fuel v,
      first_found cfg section_name key = Ok v ->
      is_None v = false ->
      _GetValue (S fuel) cfg section_name key = Ok v) /\
  (forall fuel,
      startswith "@" key = true ->
      _GetValue (S fuel) cfg section_name key = first_found cfg section_name key) /\
  (forall fuel inherited_from,
      first_found cfg section_name key = Ok PyNone ->
      startswith "@" key = false ->
      first_found cfg section_name inherit_key = Ok inherited_from ->
      is_None inherited_from = false ->
      _GetValue (S (S fuel)) cfg section_name key =
      _GetValue (S fuel) cfg inherited_from key).
Proof.
  split; [| split; [| split]].
  - intros v. split.
    + intros [fuel Hrun]. now apply (_GetValue_sound fuel).
    + apply _GetValue_complete.
  - intros fuel v Hfirst Hsome.
    rewrite _GetValue_unfold, Hfirst. cbn [bind]. now rewrite Hsome.
  - intros fuel Hat. rewrite _GetValue_unfold.
    destruct (first_found cfg section_name key) as [v| |]; cbn [bind];
      try reflexivity.
    rewrite Hat. cbn [negb]. now rewrite andb_false_r.
  - intros fuel inh Hfirst Hat Hmark Hinh.
    rewrite (_GetValue_unfold (S fuel)), Hfirst. cbn [bind is_None andb].
    rewrite Hat. cbn [negb].
    assert (startswith "@" inherit_key = true) as Hsent by reflexivity.
    rewrite _GetValue_unfold, Hmark. cbn [bind].
    rewrite Hsent, andb_false_r. cbn [bind]. now rewrite Hinh.
Qed.

(** ** The token patterns *)

Lemma span_append (cs : charset) (s : string) :
  fst (span cs s) +:+ snd (span cs s) = s.
Proof.
  induction s as [|c s IH]; [reflexivity |].
  cbn [span]. destruct (in_charset c cs); cbn [fst snd].
  - now rewrite append_cons, IH.
  - reflexivity.
Qed.

(** A pattern made of one greedy class takes the longest run. *)
Lemma re_match_Many (cs : charset) (s : string) :
  re_match [Many cs] s =
  match s with
  | String c s' =>
      if in_charset c cs
      then Some ([String c (fst (span cs s'))], snd (span cs s'))
      else None
  | EmptyString => None
  end.
Proof.
  induction s as [|c s IH]; [reflexivity |].
  cbn [re_match] in *. destruct (in_charset c cs); [| reflexivity].
  rewrite IH. destruct s as [|c' s']; [reflexivity |].
  cbn [span]. destruct (in_charset c' cs); reflexivity.
Qed.

Lemma text_not_escaped (c : ascii) :
  in_charset c text_class = true -> char_in c escape_class = false.
Proof.
  unfold in_charset, text_class, char_in, escape_class. cbn [existsb].
  destruct (ascii_eqb c "("), (ascii_eqb c ")"), (ascii_eqb c "%"),
    (ascii_eqb c "{"), (ascii_eqb c "}"), (ascii_eqb c "|"),
    (ascii_eqb c backslash); cbn; congruence.
Qed.

Lemma backslash_not_text : in_charset backslash text_class = false.
Proof. reflexivity. Qed.

(** Escaping does not touch a run of plain text, and a run of plain text
    ends at the same place before and after escaping. *)
Lemma span_EscapeString (r : string) :
  span text_class (EscapeString r) =
  (fst (span text_class r), EscapeString (snd (span text_class r))).
Proof.
  induction r as [|c r IH]; [reflexivity |].
  cbn [span EscapeString].
  destruct (in_charset c text_class) eqn:Htext.
  - rewrite (text_not_escaped c Htext). cbn [span]. rewrite Htext, IH.
    reflexivity.
  - destruct (char_in c escape_class) eqn:Hesc; cbn [span fst snd].
    + rewrite backslash_not_text. cbn [EscapeString]. now rewrite Hesc.
    + rewrite Htext. cbn [EscapeString]. now rewrite Hesc.
Qed.

Lemma EscapeString_head_not_paren (r : string) :
  re_match [One (Chr ")")] (EscapeString r) = None.
Proof.
  destruct r as [|c r]; [reflexivity |].
  cbn [EscapeString].
  destruct (char_in c escape_class) eqn:Hesc; [reflexivity |].
  cbn [re_match in_charset].
  destruct (ascii_eqb c ")") eqn:Hc; [| reflexivity].
  apply ascii_eqb_eq in Hc. subst c. discriminate.
Qed.

(** In an escaped string a run of letters is never followed by a close
    parenthesis, so the filter token cannot match. *)
Lemma EscapeString_no_filter (r : string) :
  re_match [Many Letters; One (Chr ")")] (EscapeString r) = None.
Proof.
  induction r as [|c r IH]; [reflexivity |].
  cbn [EscapeString].
  destruct (char_in c escape_class) eqn:Hesc.
  - reflexivity.
  - cbn [re_match] in *. destruct (in_charset c Letters); [| reflexivity].
    rewrite IH.
    change (push_piece c (re_match [One (Chr ")")] (EscapeString r)) = None).
    now rewrite EscapeString_head_not_paren.
Qed.

(** ** Token selection outside of literal regions *)

Lemma select_token_INITIAL (buf : string) :
  select_token "INITIAL" buf tokens = select_token "INITIAL" buf initial_tokens.
Proof. reflexivity. Qed.

Lemma select_token_skip (st buf : string) (t : Token) (ts : list Token) :
  re_match (tregex t) buf = None ->
  select_token st buf (t :: ts) = select_token st buf ts.
Proof. intros Hno. cbn [select_token]. rewrite Hno. now destruct (applies t st). Qed.

Lemma select_token_hit (st buf : string) (t : Token) (ts : list Token)
      (ps : list string) (rest : string) :
  applies t st = true ->
  re_match (tregex t) buf = Some (ps, rest) ->
  select_token st buf (t :: ts) = Some (t, ps, rest).
Proof. intros Happ Hyes. cbn [select_token]. now rewrite Happ, Hyes. Qed.

Lemma text_class_spec (c : ascii) :
  in_charset c text_class = true ->
  ascii_eqb c "(" = false /\ ascii_eqb c ")" = false /\
  ascii_eqb c "%" = false /\ ascii_eqb c "{" = false /\
  ascii_eqb c "}" = false /\ ascii_eqb c "|" = false /\
  ascii_eqb c backslash = false.
Proof.
  unfold in_charset, text_class, char_in. cbn [existsb].
  destruct (ascii_eqb c "("), (ascii_eqb c ")"), (ascii_eqb c "%"),
    (ascii_eqb c "{"), (ascii_eqb c "}"), (ascii_eqb c "|"),
    (ascii_eqb c backslash); cbn; intuition congruence.
Qed.

(** A backslash and the character after it are taken by the escape token. *)
Lemma select_escape (c : ascii) (s : string) :
  select_token "INITIAL" (String backslash (String c s)) tokens =
  Some (token_at 1, [String backslash EmptyString; String c EmptyString], s).
Proof. reflexivity. Qed.

(** A plain character starts a run taken by the text token. *)
Lemma select_text (c : ascii) (s : string) :
  in_charset c text_class = true ->
  select_token "INITIAL" (String c s) tokens =
  Some (token_at 8, [String c (fst (span text_class s))], snd (span text_class s)).
Proof.
  intros Htext.
  destruct (text_class_spec c Htext) as (H1 & H2 & H3 & H4 & H5 & H6 & H7).
  rewrite select_token_INITIAL. unfold initial_tokens.
  do 5 (rewrite select_token_skip;
        [| cbn [token_at tokens nth tregex mkToken re_match in_charset];
           rewrite ?H1, ?H2, ?H3, ?H4, ?H5, ?H6, ?H7; reflexivity]).
  apply select_token_hit; [reflexivity |].
  change (tregex (token_at 8)) with [Many text_class].
  now rewrite re_match_Many, Htext.
Qed.

(** An open parenthesis on its own is an ordinary character. *)
Lemma select_open_paren (s : string) :
  select_token "INITIAL" (String "(" s) tokens =
  Some (token_at 9, [String "(" EmptyString], s).
Proof. reflexivity. Qed.

(** So is a bar that no filter name and close parenthesis follow. *)
Lemma select_bar (s : string) :
  re_match [Many Letters; One (Chr ")")] s = None ->
  select_token "INITIAL" (String "|" s) tokens =
  Some (token_at 9, [String "|" EmptyString], s).
Proof.
  intros Hno.
  rewrite select_token_INITIAL. unfold initial_tokens.
  do 3 (rewrite select_token_skip; [| reflexivity]).
  rewrite select_token_skip.
  2:{ change (tregex (token_at 6))
        with (One (Chr "|") :: [Many Letters; One (Chr ")")]).
      change (re_match (One (Chr "|") :: [Many Letters; One (Chr ")")])
                       (String "|" s))
        with (push_piece "|" (re_match [Many Letters; One (Chr ")")] s)).
      now rewrite Hno. }
  do 2 (rewrite select_token_skip; [| reflexivity]).
  reflexivity.
Qed.

(** ** Escaping and evaluating *)

Lemma span_snd_length (cs : charset) (s : string) :
  (String.length (snd (span cs s)) <= String.length s)%nat.
Proof.
  induction s as [|c s IH]; [reflexivity |].
  cbn [span]. destruct (in_charset c cs); cbn [snd String.length]; lia.
Qed.

Lemma neither_text_nor_escaped (c : ascii) :
  char_in c escape_class = false ->
  in_charset c text_class = false ->
  c = "("%char \/ c = "|"%char.
Proof.
  unfold in_charset, text_class, char_in, escape_class. cbn [existsb].
  destruct (ascii_eqb c "(") eqn:H1; [apply ascii_eqb_eq in H1; auto |].
  destruct (ascii_eqb c "|") eqn:H2; [apply ascii_eqb_eq in H2; auto |].
  destruct (ascii_eqb c ")"), (ascii_eqb c "%"), (ascii_eqb c "{"),
    (ascii_eqb c "}"), (ascii_eqb c backslash); cbn; congruence.
Qed.

(** One token of an escaped string: some non-empty part [r1] of the
    original string has been appended to the accumulator, and what is left
    in the buffer is the escaped remainder. *)
Lemma NextToken_EscapeString (H : host) (ds p : option string)
      (c : ascii) (r acc pb : string) :
  exists r1 r2 pb',
    String c r = r1 +:+ r2 /\
    (String.length r2 < String.length (String c r))%nat /\
    NextToken H ds p (outer (EscapeString (String c r)) pb acc) =
      Ok (Some (outer (EscapeString r2) pb' (acc +:+ r1))).
Proof.
  destruct (char_in c escape_class) eqn:Hesc.
  - exists (String c EmptyString), r,
      (pb +:+ String backslash (String c EmptyString)).
    split; [reflexivity | split; [cbn; lia |]].
    apply escape_class_spec in Hesc.
    destruct Hesc as [->|[->|[->|[->| ->]]]]; reflexivity.
  - destruct (in_charset c text_class) eqn:Htext.
    + exists (String c (fst (span text_class r))), (snd (span text_class r)),
        (pb +:+ (String c (fst (span text_class r)) +:+ EmptyString)).
      split; [now rewrite append_cons, span_append |].
      split; [pose proof (span_snd_length text_class r); cbn; lia |].
      cbn [EscapeString]. rewrite Hesc.
      unfold NextToken, outer. cbn [buffer state].
      rewrite (select_text c _ Htext), span_EscapeString. cbn [fst snd].
      cbn. now rewrite append_nil_r.
    + exists (String c EmptyString), r, (pb +:+ String c EmptyString).
      split; [reflexivity | split; [cbn; lia |]].
      destruct (neither_text_nor_escaped c Hesc Htext) as [-> | ->].
      * reflexivity.
      * cbn [EscapeString]. rewrite Hesc.
        unfold NextToken, outer. cbn [buffer state].
        rewrite (select_bar _ (EscapeString_no_filter r)). reflexivity.
Qed.

Lemma EscapeString_empty (r : string) :
  EscapeString r = EmptyString -> r = EmptyString.
Proof.
  destruct r as [|c r]; [reflexivity |].
  cbn [EscapeString]. destruct (char_in c escape_class); discriminate.
Qed.

Lemma EscapeString_length (r : string) :
  (String.length r <= String.length (EscapeString r))%nat.
Proof.
  induction r as [|c r IH]; [reflexivity |].
  cbn [EscapeString]. destruct (char_in c escape_class); cbn; lia.
Qed.

Lemma Close_EscapeString (H : host) (ds p : option string) (n : nat) :
  forall (r acc pb : string) (fuel : nat),
    (String.length r < n)%nat ->
    (String.length r < fuel)%nat ->
    exists pb',
      Close H ds p fuel (outer (EscapeString r) pb acc) =
        Ok (outer EmptyString pb' (acc +:+ r)).
Proof.
  induction n as [|n IH]; intros r acc pb fuel Hn Hfuel; [lia |].
  destruct fuel as [|fuel]; [lia |].
  destruct r as [|c r].
  - exists pb. cbn. now rewrite append_nil_r.
  - destruct (NextToken_EscapeString H ds p c r acc pb)
      as (r1 & r2 & pb1 & Hsplit & Hshort & Hstep).
    cbn [Close]. rewrite Hstep. cbn [bind].
    destruct (EscapeString r2) as [|c2 e2] eqn:Hesc2.
    + apply EscapeString_empty in Hesc2. subst r2.
      exists pb1. cbn [outer buffer]. rewrite Hsplit. now rewrite append_nil_r.
    + cbn [outer buffer]. fold (outer (String c2 e2) pb1 (acc +:+ r1)).
      rewrite <- Hesc2.
      destruct (IH r2 (acc +:+ r1) pb1 fuel) as [pb' Hrun].
      * cbn in *. lia.
      * cbn in *. lia.
      * exists pb'. rewrite Hrun, Hsplit. now rewrite append_assoc.
Qed.

(** C9: evaluating an escaped string gives the string back, whatever the
    string and whatever the configuration and filters are (an escaped
    string holds no expression, so neither is consulted). *)
Theorem Parse_EscapeString (H : host) (ds p : option string) (s : string) :
  Parse H ds p (EscapeString s) = Ok s.
Proof.
  unfold Parse.
  destruct (Close_EscapeString H ds p (S (String.length s)) s EmptyString
              EmptyString (S (String.length (EscapeString s)))) as [pb' Hrun].
  - lia.
  - pose proof (EscapeString_length s). lia.
  - change (new_lexer (EscapeString s))
      with (outer (EscapeString s) EmptyString EmptyString).
    rewrite Hrun. reflexivity.
Qed.

(** ** Every token consumes input *)

Lemma push_piece_Some (c : ascii) (m : option (list string * string))
      (ps : list string) (rest : string) :
  push_piece c m = Some (ps, rest) ->
  exists ps', m = Some (ps', rest).
Proof.
  destruct m as [[ps' rest']|]; [| discriminate].
  cbn. intros Heq. injection Heq as _ <-. now exists ps'.
Qed.

Lemma re_match_length (r : regex) :
  forall s ps rest,
    re_match r s = Some (ps, rest) ->
    (String.length rest <= String.length s)%nat /\
    (consuming r -> (String.length rest < String.length s)%nat).
Proof.
  induction r as [|a r IH]; intros s ps rest Hm.
  - cbn in Hm. injection Hm as _ <-. split; [lia | intros []].
  - destruct a as [cs|cs| |].
    + destruct s as [|c s]; [discriminate |].
      cbn [re_match] in Hm. destruct (in_charset c cs); [| discriminate].
      apply push_piece_Some in Hm. destruct Hm as [ps' Hm].
      apply IH in Hm. cbn. split; [lia | intros _; lia].
    + assert (String.length rest < String.length s)%nat as Hlt;
        [| split; [lia | intros _; exact Hlt]].
      revert ps rest Hm. induction s as [|c s IHs]; intros ps rest Hm;
        [discriminate |].
      cbn [re_match] in Hm. destruct (in_charset c cs); [| discriminate].
      match type of Hm with
      | match ?m with _ => _ end = _ => destruct m as [[[|p ps0] rest0]|] eqn:Hmany
      end.
      * apply push_piece_Some in Hm. destruct Hm as [ps' Hm].
        apply IH in Hm. cbn. lia.
      * injection Hm as _ <-.
        specialize (IHs _ _ Hmany). cbn. lia.
      * apply push_piece_Some in Hm. destruct Hm as [ps' Hm].
        apply IH in Hm. cbn. lia.
    + cbn [re_match] in Hm.
      destruct (re_match r s) as [[ps' rest']|] eqn:Hr; [| discriminate].
      injection Hm as _ <-. apply IH in Hr. split; [lia | intros []].
    + cbn [re_match] in Hm. split; [| intros []].
      destruct s as [|c s]; [apply IH in Hm; lia |].
      destruct (ascii_eqb c newline); [| discriminate].
      apply IH in Hm. lia.
Qed.

Lemma select_token_In (st buf : string) (ts : list Token) (t : Token)
      (ps : list string) (rest : string) :
  select_token st buf ts = Some (t, ps, rest) ->
  In t ts /\ re_match (tregex t) buf = Some (ps, rest).
Proof.
  induction ts as [|t0 ts IH]; [discriminate |].
  cbn [select_token].
  destruct (applies t0 st).
  - destruct (re_match (tregex t0) buf) as [[ps0 rest0]|] eqn:Hm.
    + intros Heq. injection Heq as <- <- <-. split; [now left | exact Hm].
    + intros Hsel. destruct (IH Hsel). split; [now right | assumption].
  - intros Hsel. destruct (IH Hsel). split; [now right | assumption].
Qed.

Lemma select_token_before (st buf : string) (l1 l2 : list Token) (t0 : Token) :
  applies t0 st = true ->
  re_match (tregex t0) buf <> None ->
  forall t ps rest,
    select_token st buf (l1 ++ t0 :: l2) = Some (t, ps, rest) ->
    In t (l1 ++ [t0]).
Proof.
  intros Happ Hyes. induction l1 as [|t1 l1 IH]; intros t ps rest Hsel.
  - cbn [app select_token] in Hsel. rewrite Happ in Hsel.
    destruct (re_match (tregex t0) buf) as [[ps0 rest0]|]; [| congruence].
    injection Hsel as <- _ _. now left.
  - change ((t1 :: l1) ++ t0 :: l2) with (t1 :: (l1 ++ t0 :: l2)) in Hsel.
    cbn [select_token] in Hsel.
    destruct (applies t1 st).
    + destruct (re_match (tregex t1) buf) as [[ps1 rest1]|].
      * injection Hsel as <- _ _. now left.
      * right. eapply IH, Hsel.
    + right. eapply IH, Hsel.
Qed.

(** The last entry of the table, [^$], is never reached: the entry before
    it takes any character. *)
Lemma select_token_consuming (st : string) (c : ascii) (s : string)
      (t : Token) (ps : list string) (rest : string) :
  select_token st (String c s) tokens = Some (t, ps, rest) ->
  consuming (tregex t).
Proof.
  intros Hsel.
  assert (In t (firstn 9 tokens ++ [token_at 9])) as Hin.
  { apply (select_token_before st (String c s) (firstn 9 tokens)
             [token_at 10] (token_at 9) eq_refl ltac:(discriminate) t ps rest).
    exact Hsel. }
  cbn in Hin.
  repeat (destruct Hin as [<-|Hin]; [exact I |]).
  destruct Hin.
Qed.

(** A token read from a non-empty buffer leaves a shorter buffer. *)
Lemma select_token_shorter (st buf : string) (t : Token)
      (ps : list string) (rest : string) :
  buf <> EmptyString ->
  select_token st buf tokens = Some (t, ps, rest) ->
  (String.length rest < String.length buf)%nat.
Proof.
  intros Hbuf Hsel. destruct buf as [|c s]; [congruence |].
  pose proof (select_token_consuming _ _ _ _ _ _ Hsel) as Hcons.
  apply select_token_In in Hsel. destruct Hsel as [_ Hm].
  apply re_match_length in Hm. now apply Hm.
Qed.

(** ** Where an evaluation raises its own parse errors *)

Section Balance.
Variable H : host.
Variable default_section : option string.
Variable parameter : option string.

Abbreviation run_action' := (run_action H default_section parameter).
Abbreviation run_actions' := (run_actions H default_section parameter).
Abbreviation NextToken' := (NextToken H default_section parameter).
Abbreviation Close' := (Close H default_section parameter).
Abbreviation Parse' := (Parse H default_section parameter).
Abbreviation reaches' := (reaches H default_section parameter).
Abbreviation settle' := (settle H default_section parameter).

Lemma append_top_Ok (s : string) (lx lx' : lexer) :
  append_top s lx = Ok lx' ->
  buffer lx' = buffer lx /\ stack lx' <> [] /\
  processed_buffer lx' = processed_buffer lx.
Proof.
  unfold append_top. destruct (stack lx) as [|top rest]; [discriminate |].
  intros Heq. injection Heq as <-. cbn. repeat split. discriminate.
Qed.

Lemma append_top_not_unbalanced (s : string) (lx : lexer) k pb :
  append_top s lx <> Raise (Unbalanced k pb).
Proof. unfold append_top. destruct (stack lx); discriminate. Qed.

Lemma from_callee_not_unbalanced {A} (r : result A) k pb :
  from_callee parameter r <> Raise (Unbalanced k pb).
Proof. destruct r as [a|[]|]; discriminate. Qed.

(** A callback raises a parse error of its own only in [ExpandArg] and in
    [EndLiteralExpression], and only on a stack of one accumulator. *)
Lemma run_action_unbalanced (a : action) (ps : list string) (lx : lexer) k pb :
  run_action' a ps lx = Raise (Unbalanced k pb) ->
  pb = processed_buffer lx /\ (length (stack lx) <= 1)%nat /\
  ((a = ExpandArg /\ k = UnbalancedParenthesis) \/
   (a = EndLiteralExpression /\ k = UnbalancedLiteral)).
Proof.
  destruct a; cbn [run_action]; unfold do_AppendArg, do_Escape,
    do_StartExpression, do_PushState, do_PopState; intros Hr.
  - destruct (append_top (group0 ps) lx) eqn:Ha; cbn in Hr; try discriminate.
    injection Hr as ->. now apply append_top_not_unbalanced in Ha.
  - destruct (append_top (escape_value (group0 ps)) lx) eqn:Ha; cbn in Hr;
      try discriminate.
    injection Hr as ->. now apply append_top_not_unbalanced in Ha.
  - unfold do_EndLiteralExpression in Hr.
    destruct (length (stack lx) <=? 1)%nat eqn:Hlen.
    + cbn in Hr. injection Hr as <- <-.
      apply Nat.leb_le in Hlen. auto.
    + destruct (stack lx) as [|arg rest]; [discriminate |].
      destruct (append_top arg (set_stack rest lx)) eqn:Ha; cbn in Hr;
        try discriminate.
      injection Hr as ->. now apply append_top_not_unbalanced in Ha.
  - destruct (state_stack lx); discriminate.
  - discriminate.
  - discriminate.
  - unfold do_Filter in Hr.
    destruct (stack lx) as [|arg rest]; [discriminate |].
    destruct (from_callee parameter
                (apply_filters H (split "," (group 1 ps)) (PyStr arg)))
      as [arg'|e|] eqn:Hf; cbn in Hr; try discriminate.
    + destruct arg'; try (destruct rest; discriminate);
        destruct (append_top s (set_stack rest lx)) eqn:Ha; cbn in Hr;
        try discriminate;
        injection Hr as ->; now apply append_top_not_unbalanced in Ha.
    + injection Hr as ->. now apply from_callee_not_unbalanced in Hf.
  - unfold do_ExpandArg in Hr.
    destruct (length (stack lx) <=? 1)%nat eqn:Hlen.
    + cbn in Hr. injection Hr as <- <-.
      apply Nat.leb_le in Hlen. auto.
    + destruct (stack lx) as [|name rest]; [discriminate |].
      match type of Hr with
      | context [from_callee parameter (config_getitem H ?n)] =>
          destruct (from_callee parameter (config_getitem H n))
            as [v|e|] eqn:Hg; cbn in Hr; try discriminate;
          [destruct (from_callee parameter (config_FindTypeInfo H n))
             as [found|e|] eqn:Hf; cbn in Hr; try discriminate |]
      end.
      * match type of Hr with
        | context [append_top ?x ?l] =>
            destruct (append_top x l) eqn:Ha; cbn in Hr; try discriminate
        end.
        injection Hr as ->. now apply append_top_not_unbalanced in Ha.
      * injection Hr as ->. now apply from_callee_not_unbalanced in Hf.
      * injection Hr as ->. now apply from_callee_not_unbalanced in Hg.
Qed.

Lemma run_action_ExpandArg_short (ps : list string) (lx : lexer) :
  (length (stack lx) <= 1)%nat ->
  run_action' ExpandArg ps lx =
    Raise (Unbalanced UnbalancedParenthesis (processed_buffer lx)).
Proof.
  intros Hlen. cbn [run_action]. unfold do_ExpandArg.
  apply Nat.leb_le in Hlen. now rewrite Hlen.
Qed.

Lemma run_action_EndLiteral_short (ps : list string) (lx : lexer) :
  (length (stack lx) <= 1)%nat ->
  run_action' EndLiteralExpression ps lx =
    Raise (Unbalanced UnbalancedLiteral (processed_buffer lx)).
Proof.
  intros Hlen. cbn [run_action]. unfold do_EndLiteralExpression.
  apply Nat.leb_le in Hlen. now rewrite Hlen.
Qed.

Lemma run_action_Ok (a : action) (ps : list string) (lx lx' : lexer)
      (o : option string) :
  run_action' a ps lx = Ok (lx', o) ->
  buffer lx' = buffer lx /\ (stack lx <> [] -> stack lx' <> []).
Proof.
  assert (forall r : outcome lexer,
             (let! l := r in Ok (l, @None string)) = Ok (lx', o) ->
             r = Ok lx') as Hnone.
  { intros [l|e|]; cbn; intros Heq; try discriminate.
    now injection Heq as -> _. }
  destruct a; cbn [run_action]; intros Hr;
    try (apply Hnone in Hr).
  - apply append_top_Ok in Hr. tauto.
  - apply append_top_Ok in Hr. tauto.
  - unfold do_EndLiteralExpression in Hr.
    destruct (length (stack lx) <=? 1)%nat; [discriminate |].
    destruct (stack lx) as [|arg rest]; [discriminate |].
    apply append_top_Ok in Hr. cbn in Hr. tauto.
  - unfold do_PopState in Hr.
    destruct (state_stack lx); [discriminate |].
    injection Hr as <- _. cbn. tauto.
  - unfold do_StartExpression in Hr. injection Hr as <-. cbn.
    split; [reflexivity | discriminate].
  - unfold do_PushState in Hr. injection Hr as <-. cbn. tauto.
  - unfold do_Filter in Hr.
    destruct (stack lx) as [|arg rest]; [discriminate |].
    destruct (from_callee parameter
                (apply_filters H (split "," (group 1 ps)) (PyStr arg)))
      as [arg'|e|]; cbn [bind] in Hr; try discriminate.
    destruct arg'; try (destruct rest; discriminate).
    apply append_top_Ok in Hr. cbn in Hr. tauto.
  - unfold do_ExpandArg in Hr.
    destruct (length (stack lx) <=? 1)%nat; [discriminate |].
    destruct (stack lx) as [|name rest]; [discriminate |].
    match type of Hr with
    | context [from_callee parameter (config_getitem H ?n)] =>
        destruct (from_callee parameter (config_getitem H n))
          as [v|e|]; cbn [bind] in Hr; try discriminate;
        destruct (from_callee parameter (config_FindTypeInfo H n))
          as [found|e|]; cbn [bind] in Hr; try discriminate
    end.
    apply append_top_Ok in Hr. cbn in Hr. tauto.
Qed.

Lemma run_actions_Ok (acts : list action) (ps : list string) :
  forall (lx lx' : lexer) (nxt o : option string),
    run_actions' acts ps lx nxt = Ok (lx', o) ->
    buffer lx' = buffer lx /\ (stack lx <> [] -> stack lx' <> []).
Proof.
  induction acts as [|a acts IH]; intros lx lx' nxt o Hr.
  - cbn in Hr. injection Hr as <- _. tauto.
  - cbn [run_actions] in Hr.
    destruct (run_action' a ps lx) as [[lx1 o1]|e|] eqn:Ha; cbn [bind] in Hr;
      try discriminate.
    apply run_action_Ok in Ha. apply IH in Hr.
    destruct Ha as [Hb1 Hs1], Hr as [Hb2 Hs2].
    split; [congruence | auto].
Qed.

Lemma tokens_guarded (t : Token) : In t tokens -> guarded_head (actions t).
Proof.
  unfold tokens. cbn [In].
  intros Hin.
  repeat (destruct Hin as [<-|Hin];
          [cbn; try exact I; split; intros Hbad; cbn in Hbad;
           repeat (destruct Hbad as [Hbad|Hbad]; [discriminate |]);
           exact Hbad |]).
  destruct Hin.
Qed.

Lemma run_actions_unbalanced (acts : list action) (ps : list string)
      (lx : lexer) (nxt : option string) k :
  guarded_head acts ->
  (exists pb, run_actions' acts ps lx nxt = Raise (Unbalanced k pb)) <->
  (length (stack lx) <= 1)%nat /\
  ((In ExpandArg acts /\ k = UnbalancedParenthesis) \/
   (In EndLiteralExpression acts /\ k = UnbalancedLiteral)).
Proof.
  intros Hguard. destruct acts as [|a later].
  - cbn. split; [intros [pb Hr]; discriminate | intros [_ [[[] _]|[[] _]]]].
  - destruct Hguard as [HnoE HnoL]. cbn [run_actions]. split.
    + intros [pb Hr].
      destruct (run_action' a ps lx) as [[lx1 o1]|e|] eqn:Ha; cbn [bind] in Hr;
        try discriminate.
      * exfalso. clear Ha.
        revert lx1 Hr.
        generalize (if truthy_state o1 then o1 else nxt) as nxt'.
        induction later as [|b later IH]; intros nxt' lx1 Hr; [discriminate |].
        cbn [run_actions] in Hr.
        destruct (run_action' b ps lx1) as [[lx2 o2]|e|] eqn:Hb;
          cbn [bind] in Hr; try discriminate.
        -- eapply IH; [| | exact Hr]; intros Hbad; [apply HnoE | apply HnoL];
             now right.
        -- injection Hr as ->. apply run_action_unbalanced in Hb.
           destruct Hb as (_ & _ & [[-> _]|[-> _]]);
             [apply HnoE | apply HnoL]; now left.
      * injection Hr as ->. apply run_action_unbalanced in Ha.
        destruct Ha as (_ & Hlen & [[-> ->]|[-> ->]]);
          (split; [exact Hlen |]); [left | right]; split; auto; now left.
    + intros [Hlen [[Hin ->]|[Hin ->]]];
        (destruct Hin as [->|Hin]; [| tauto]);
        exists (processed_buffer lx).
      * now rewrite run_action_ExpandArg_short.
      * now rewrite run_action_EndLiteral_short.
Qed.

Lemma select_token_found (st buf : string) (l1 l2 : list Token) (t0 : Token) :
  applies t0 st = true ->
  re_match (tregex t0) buf <> None ->
  select_token st buf (l1 ++ t0 :: l2) <> None.
Proof.
  intros Happ Hyes. induction l1 as [|t1 l1 IH].
  - cbn [app select_token]. rewrite Happ.
    destruct (re_match (tregex t0) buf) as [[ps0 rest0]|]; congruence.
  - change ((t1 :: l1) ++ t0 :: l2) with (t1 :: (l1 ++ t0 :: l2)).
    cbn [select_token]. destruct (applies t1 st); [| exact IH].
    destruct (re_match (tregex t1) buf) as [[ps1 rest1]|]; [discriminate | exact IH].
Qed.

(** The lexer is never stuck: some token matches a non-empty buffer. *)
Lemma select_token_total (st : string) (c : ascii) (s : string) :
  select_token st (String c s) tokens <> None.
Proof.
  apply (select_token_found st (String c s) (firstn 9 tokens) [token_at 10]
           (token_at 9) eq_refl).
  discriminate.
Qed.

Lemma NextToken_cases (lx : lexer) :
  (buffer lx = EmptyString /\ NextToken' lx = Ok None) \/
  (buffer lx <> EmptyString /\
   exists t ps rest,
     select_token (state lx) (buffer lx) tokens = Some (t, ps, rest) /\
     NextToken' lx =
       (let! (lx', nxt) :=
          run_actions' (actions t) ps (consume (group0 ps) rest lx)
                       (next_state t) in
        Ok (Some (if truthy_state nxt
                  then set_state (py_str nxt) (state_stack lx') lx'
                  else lx')))).
Proof.
  unfold NextToken. destruct (buffer lx) as [|c s] eqn:Hbuf; [now left |].
  right. split; [discriminate |].
  destruct (select_token (state lx) (String c s) tokens)
    as [[[t ps] rest]|] eqn:Hsel.
  - exists t, ps, rest. split; reflexivity.
  - now apply select_token_total in Hsel.
Qed.

(** One successful token: the buffer gets shorter and the stack keeps at
    least one accumulator. *)
Lemma NextToken_Some (lx lx' : lexer) :
  NextToken' lx = Ok (Some lx') ->
  buffer lx <> EmptyString /\
  (String.length (buffer lx') < String.length (buffer lx))%nat /\
  (stack lx <> [] -> stack lx' <> []).
Proof.
  intros Hstep.
  destruct (NextToken_cases lx) as [[_ Hnone]|(Hbuf & t & ps & rest & Hsel & Heq)];
    [congruence |].
  split; [exact Hbuf |].
  rewrite Heq in Hstep.
  destruct (run_actions' (actions t) ps (consume (group0 ps) rest lx)
                         (next_state t)) as [[lx1 nxt]|e|] eqn:Hrun;
    cbn [bind] in Hstep; try discriminate.
  apply run_actions_Ok in Hrun. cbn [consume buffer stack] in Hrun.
  destruct Hrun as [Hb Hs].
  pose proof (select_token_shorter _ _ _ _ _ Hbuf Hsel) as Hshort.
  injection Hstep as <-.
  destruct (truthy_state nxt); cbn [set_state buffer stack];
    rewrite Hb; auto.
Qed.

Lemma NextToken_None (lx : lexer) :
  NextToken' lx = Ok None <-> buffer lx = EmptyString.
Proof.
  split.
  - intros Hnone.
    destruct (NextToken_cases lx) as [[Hbuf _]|(_ & t & ps & rest & _ & Heq)];
      [exact Hbuf |].
    rewrite Heq in Hnone.
    destruct (run_actions' (actions t) ps (consume (group0 ps) rest lx)
                           (next_state t)) as [[lx1 nxt]|e|];
      discriminate.
  - intros Hbuf. unfold NextToken. now rewrite Hbuf.
Qed.

(** [NextToken] raises a parse error of its own exactly when the token it
    reads is a [)] or the [}] of a literal and the stack holds a single
    accumulator. *)
Lemma NextToken_unbalanced (lx : lexer) k :
  (exists pb, NextToken' lx = Raise (Unbalanced k pb)) <->
  k <> NestedNotBalanced /\ unbalanced_at k lx.
Proof.
  destruct (NextToken_cases lx) as [[Hbuf Hnone]|(Hbuf & t & ps & rest & Hsel & Heq)].
  - split.
    + intros [pb Hr]. congruence.
    + intros [Hk Hat]. destruct k; cbn in Hat; try congruence;
        destruct Hat as [[Hne _] _]; congruence.
  - pose proof (tokens_guarded t (proj1 (select_token_In _ _ _ _ _ _ Hsel)))
      as Hguard.
    pose proof (run_actions_unbalanced (actions t) ps
                  (consume (group0 ps) rest lx) (next_state t) k Hguard)
      as Hiff.
    cbn [consume stack] in Hiff.
    rewrite Heq. split.
    + intros [pb Hr].
      assert (exists pb,
                 run_actions' (actions t) ps (consume (group0 ps) rest lx)
                              (next_state t) = Raise (Unbalanced k pb)) as Hex.
      { destruct (run_actions' (actions t) ps (consume (group0 ps) rest lx)
                               (next_state t)) as [[lx1 nxt]|e|];
          cbn [bind] in Hr; try discriminate.
        injection Hr as ->. now exists pb. }
      apply Hiff in Hex. destruct Hex as [Hlen [[Hin ->]|[Hin ->]]].
      * split; [discriminate |]. cbn. split; [| exact Hlen].
        split; [exact Hbuf |]. now exists t, ps, rest.
      * split; [discriminate |]. cbn. split; [| exact Hlen].
        split; [exact Hbuf |]. now exists t, ps, rest.
    + intros [Hk Hat].
      assert (exists pb,
                 run_actions' (actions t) ps (consume (group0 ps) rest lx)
                              (next_state t) = Raise (Unbalanced k pb)) as [pb Hr].
      { apply Hiff. destruct k; cbn in Hat; try congruence;
          destruct Hat as [(_ & t' & ps' & rest' & Hsel' & Hin) Hlen];
          rewrite Hsel in Hsel'; injection Hsel' as <- <- <-;
          (split; [exact Hlen |]); [left | right]; now split. }
      exists pb. now rewrite Hr.
Qed.

Lemma Close_unfold (fuel : nat) (lx : lexer) :
  Close' (S fuel) lx =
  match NextToken' lx with
  | Ok None => Ok lx
  | Ok (Some lx') => settle' fuel lx'
  | Raise e => Raise e
  | OutOfFuel => OutOfFuel
  end.
Proof.
  cbn [Close]. destruct (NextToken' lx) as [[lx'|]|e|]; reflexivity.
Qed.

Lemma Close_settle (fuel : nat) (lx : lexer) :
  Close' (S fuel) lx = settle' (S fuel) lx.
Proof.
  unfold settle. destruct (buffer lx) eqn:Hbuf; [| reflexivity].
  rewrite Close_unfold. apply NextToken_None in Hbuf. now rewrite Hbuf.
Qed.

Lemma reaches_stack (lx lx' : lexer) :
  reaches' lx lx' -> stack lx <> [] -> stack lx' <> [].
Proof.
  induction 1 as [|lx lx1 lx2 Hstep _ IH]; [auto |].
  intros Hs. apply IH. now apply (NextToken_Some _ _ Hstep).
Qed.

Lemma reaches_trans (a b c : lexer) :
  reaches' a b -> reaches' b c -> reaches' a c.
Proof.
  induction 1 as [|lx lx1 lx2 Hstep _ IH]; [auto |].
  intros Hbc. eapply reaches_next; eauto.
Qed.

(** With a budget above the length of the buffer the loop goes through
    every state the lexer can reach. *)
Lemma reaches_settle (lx lx' : lexer) :
  reaches' lx lx' ->
  forall fuel,
    (String.length (buffer lx) < fuel)%nat ->
    exists fuel',
      (String.length (buffer lx') < fuel')%nat /\
      settle' fuel lx = settle' fuel' lx'.
Proof.
  induction 1 as [lx|lx lx1 lx2 Hstep _ IH]; intros fuel Hfuel.
  - now exists fuel.
  - destruct (NextToken_Some _ _ Hstep) as (Hbuf & Hshort & _).
    destruct fuel as [|fuel]; [lia |].
    destruct (IH fuel ltac:(lia)) as (fuel' & Hfuel' & Heq).
    exists fuel'. split; [exact Hfuel' |].
    rewrite <- Heq. unfold settle at 1.
    destruct (buffer lx); [congruence |].
    now rewrite Close_unfold, Hstep.
Qed.

Lemma Close_Ok (fuel : nat) :
  forall lx lx',
    Close' fuel lx = Ok lx' ->
    reaches' lx lx' /\ buffer lx' = EmptyString.
Proof.
  induction fuel as [|fuel IH]; intros lx lx' Hrun; [discriminate |].
  rewrite Close_unfold in Hrun.
  destruct (NextToken' lx) as [[lx1|]|e|] eqn:Hstep; try discriminate.
  - unfold settle in Hrun. destruct (buffer lx1) eqn:Hbuf.
    + injection Hrun as <-. split; [| exact Hbuf].
      eapply reaches_next; [exact Hstep | apply reaches_here].
    + apply IH in Hrun. destruct Hrun as [Hreach Hend].
      split; [| exact Hend]. eapply reaches_next; eauto.
  - injection Hrun as <-. split; [apply reaches_here |].
    now apply NextToken_None.
Qed.

Lemma Close_Raise (fuel : nat) (e : lexerr) :
  forall lx,
    Close' fuel lx = Raise e ->
    exists lx', reaches' lx lx' /\ NextToken' lx' = Raise e.
Proof.
  induction fuel as [|fuel IH]; intros lx Hrun; [discriminate |].
  rewrite Close_unfold in Hrun.
  destruct (NextToken' lx) as [[lx1|]|e1|] eqn:Hstep; try discriminate.
  - unfold settle in Hrun. destruct (buffer lx1); [discriminate |].
    apply IH in Hrun. destruct Hrun as (lx' & Hreach & Hraise).
    exists lx'. split; [| exact Hraise]. eapply reaches_next; eauto.
  - injection Hrun as ->. exists lx. split; [apply reaches_here | exact Hstep].
Qed.

Lemma finish_unbalanced (lx : lexer) k pb :
  stack lx <> [] ->
  finish lx = Raise (Unbalanced k pb) <->
  k = NestedNotBalanced /\ pb = processed_buffer lx /\
  (1 < length (stack lx))%nat.
Proof.
  intros Hs. unfold finish.
  destruct (stack lx) as [|a [|b rest]]; [congruence | |].
  - split; [discriminate | cbn; lia].
  - split.
    + intros Heq. injection Heq as <- <-. cbn. repeat split. lia.
    + intros (-> & -> & _). reflexivity.
Qed.

(** An evaluation ends with a parse error of its own exactly when it gets
    to one of the three situations. *)
Lemma Parse_unbalanced_iff (data : string) (k : imbalance) :
  (exists pb, Parse' data = Raise (Unbalanced k pb)) <->
  (exists lx, reaches' (new_lexer data) lx /\ unbalanced_at k lx).
Proof.
  unfold Parse. rewrite Close_settle. split.
  - intros [pb Hparse]. rewrite <- Close_settle in Hparse.
    destruct (Close' (S (String.length data)) (new_lexer data))
      as [lx|e|] eqn:Hrun; cbn [bind] in Hparse; try discriminate.
    + apply Close_Ok in Hrun. destruct Hrun as [Hreach Hend].
      exists lx. split; [exact Hreach |].
      apply finish_unbalanced in Hparse.
      * destruct Hparse as (-> & _ & Hdeep). now split.
      * apply (reaches_stack _ _ Hreach). discriminate.
    + injection Hparse as ->.
      apply Close_Raise in Hrun. destruct Hrun as (lx & Hreach & Hraise).
      exists lx. split; [exact Hreach |].
      now apply (NextToken_unbalanced lx k); exists pb.
  - intros (lx & Hreach & Hat).
    destruct (reaches_settle _ _ Hreach (S (String.length data)))
      as (fuel' & Hfuel' & Heq); [cbn; lia |].
    rewrite Heq.
    destruct k.
    + destruct (proj2 (NextToken_unbalanced lx UnbalancedParenthesis))
        as [pb Hraise]; [split; [discriminate | exact Hat] |].
      destruct Hat as [[Hbuf _] _]. exists pb.
      unfold settle. destruct (buffer lx); [congruence |].
      destruct fuel' as [|fuel']; [lia |].
      now rewrite Close_unfold, Hraise.
    + destruct (proj2 (NextToken_unbalanced lx UnbalancedLiteral))
        as [pb Hraise]; [split; [discriminate | exact Hat] |].
      destruct Hat as [[Hbuf _] _]. exists pb.
      unfold settle. destruct (buffer lx); [congruence |].
      destruct fuel' as [|fuel']; [lia |].
      now rewrite Close_unfold, Hraise.
    + destruct Hat as [Hbuf Hdeep]. exists (processed_buffer lx).
      unfold settle. rewrite Hbuf. cbn [bind].
      apply finish_unbalanced; [| auto].
      intros Hnil. rewrite Hnil in Hdeep. cbn in Hdeep. lia.
Qed.

End Balance.

(** ** The literal state *)

Section Nesting.
Variable H : host.
Variable default_section : option string.
Variable parameter : option string.

Lemma append_top_shape (s : string) (lx lx' : lexer) :
  append_top s lx = Ok lx' ->
  state lx' = state lx /\ state_stack lx' = state_stack lx /\
  length (stack lx') = length (stack lx).
Proof.
  unfold append_top. destruct (stack lx) as [|top rest] eqn:Hs; [discriminate |].
  intros Heq. injection Heq as <-. cbn. auto.
Qed.

(** The callbacks other than [PushState] and [PopState] leave the lexer
    state alone and return nothing. *)
Lemma run_action_state (a : action) (ps : list string) (lx lx' : lexer)
      (o : option string) :
  a <> PushState -> a <> PopState ->
  run_action H default_section parameter a ps lx = Ok (lx', o) ->
  state lx' = state lx /\ state_stack lx' = state_stack lx /\ o = None.
Proof.
  intros Hpush Hpop.
  assert (forall r : outcome lexer,
             (let! l := r in Ok (l, @None string)) = Ok (lx', o) ->
             r = Ok lx' /\ o = None) as Hnone.
  { intros [l|e|]; cbn; intros Heq; try discriminate.
    now injection Heq as -> <-. }
  destruct a; try congruence; cbn [run_action]; intros Hr;
    apply Hnone in Hr; destruct Hr as [Hr ->].
  - apply append_top_shape in Hr. tauto.
  - apply append_top_shape in Hr. tauto.
  - unfold do_EndLiteralExpression in Hr.
    destruct (length (stack lx) <=? 1)%nat; [discriminate |].
    destruct (stack lx) as [|arg rest]; [discriminate |].
    apply append_top_shape in Hr. cbn in Hr. tauto.
  - unfold do_StartExpression in Hr. injection Hr as <-. cbn. auto.
  - unfold do_Filter in Hr.
    destruct (stack lx) as [|arg rest]; [discriminate |].
    destruct (from_callee parameter
                (apply_filters H (split "," (group 1 ps)) (PyStr arg)))
      as [arg'|e|]; cbn [bind] in Hr; try discriminate.
    destruct arg'; try (destruct rest; discriminate).
    apply append_top_shape in Hr. cbn in Hr. tauto.
  - unfold do_ExpandArg in Hr.
    destruct (length (stack lx) <=? 1)%nat; [discriminate |].
    destruct (stack lx) as [|name rest]; [discriminate |].
    match type of Hr with
    | context [from_callee parameter (config_getitem H ?n)] =>
        destruct (from_callee parameter (config_getitem H n))
          as [v|e|]; cbn [bind] in Hr; try discriminate;
        destruct (from_callee parameter (config_FindTypeInfo H n))
          as [found|e|]; cbn [bind] in Hr; try discriminate
    end.
    apply append_top_shape in Hr. cbn in Hr. tauto.
Qed.

(** In the literal state one of the first four entries of the table is
    taken. *)
Lemma select_token_Literal (c : ascii) (s : string) (t : Token)
      (ps : list string) (rest : string) :
  select_token "Literal" (String c s) tokens = Some (t, ps, rest) ->
  In t (firstn 4 tokens).
Proof.
  intros Hsel.
  destruct (ascii_eqb c "}") eqn:Hc.
  - apply ascii_eqb_eq in Hc. subst c.
    assert (In t (firstn 2 tokens ++ [token_at 2])) as Hin.
    { apply (select_token_before "Literal" (String "}" s) (firstn 2 tokens)
               (skipn 3 tokens) (token_at 2) eq_refl ltac:(discriminate)
               t ps rest).
      exact Hsel. }
    cbn in Hin. cbn. tauto.
  - assert (re_match (tregex (token_at 3)) (String c s) <> None) as Hm.
    { change (tregex (token_at 3)) with [Many literal_class].
      rewrite re_match_Many.
      assert (in_charset c literal_class = true) as ->; [| discriminate].
      unfold in_charset, literal_class, char_in. cbn [existsb].
      now rewrite Hc. }
    apply (select_token_before "Literal" (String c s) (firstn 3 tokens)
             (skipn 4 tokens) (token_at 3) eq_refl Hm t ps rest Hsel).
Qed.

Lemma NextToken_well_nested (lx lx' : lexer) :
  well_nested lx ->
  NextToken H default_section parameter lx = Ok (Some lx') ->
  well_nested lx'.
Proof.
  intros Hinv Hstep.
  destruct (NextToken_cases H default_section parameter lx)
    as [[_ Hnone]|(Hbuf & t & ps & rest & Hsel & Heq)]; [congruence |].
  rewrite Heq in Hstep. clear Heq.
  assert (forall a l,
             a <> PushState -> a <> PopState ->
             (let! (lx1, nxt) :=
                run_actions H default_section parameter [a] ps l None in
              Ok (Some (if truthy_state nxt
                        then set_state (py_str nxt) (state_stack lx1) lx1
                        else lx1))) = Ok (Some lx') ->
             run_action H default_section parameter a ps l = Ok (lx', None))
    as Hsingle.
  { intros a l Hpush Hpop. cbn [run_actions].
    destruct (run_action H default_section parameter a ps l)
      as [[lx1 o]|e|] eqn:Ha; cbn [bind]; try discriminate.
    destruct (run_action_state _ _ _ _ _ Hpush Hpop Ha) as (_ & _ & ->).
    cbn. intros Heq. now injection Heq as <-. }
  destruct Hinv as [(Hst & Hss & Hstack)|(Hst & Hss & Hdeep)];
    rewrite Hst in Hsel.
  - rewrite select_token_INITIAL in Hsel.
    apply select_token_In in Hsel. destruct Hsel as [Hin _].
    assert (forall a,
               a <> PushState -> a <> PopState ->
               run_action H default_section parameter a ps
                          (consume (group0 ps) rest lx) = Ok (lx', None) ->
               well_nested lx') as Hkeep.
    { intros a Hpush Hpop Ha.
      destruct (run_action_state _ _ _ _ _ Hpush Hpop Ha) as (Hs1 & Hs2 & _).
      apply run_action_Ok in Ha. destruct Ha as [_ Hne].
      cbn [consume state state_stack stack] in *.
      left. repeat split; [congruence | congruence | auto]. }
    cbn in Hin.
    destruct Hin as [<-|[<-|[<-|[<-|[<-|[<-|[<-|[<-|[]]]]]]]]];
      cbn [actions next_state mkToken] in Hstep;
      try (apply Hsingle in Hstep; [| discriminate | discriminate];
           apply Hkeep in Hstep; [exact Hstep | discriminate | discriminate]).
    + cbn in Hstep. injection Hstep as <-. right. cbn.
      split; [reflexivity | split; [now rewrite Hst, Hss |]].
      destruct (stack lx); [congruence | cbn; lia].
    + cbn in Hstep. injection Hstep as <-. left. cbn. auto.
  - destruct (buffer lx) as [|c s]; [congruence |].
    apply select_token_Literal in Hsel.
    assert (forall x,
               run_action H default_section parameter AppendArg ps
                          (consume (group0 ps) rest lx) = Ok (lx', x) \/
               run_action H default_section parameter Escape ps
                          (consume (group0 ps) rest lx) = Ok (lx', x) ->
               well_nested lx') as Hkeep.
    { intros x Ha.
      assert (exists y, append_top y (consume (group0 ps) rest lx) = Ok lx')
        as [y Hy].
      { destruct Ha as [Ha|Ha]; cbn [run_action] in Ha;
          unfold do_AppendArg, do_Escape in Ha;
          match type of Ha with
          | (let! l := append_top ?y ?l0 in _) = _ =>
              exists y; destruct (append_top y l0) as [l1|e|];
              cbn [bind] in Ha; try discriminate;
              now injection Ha as -> _
          end. }
      apply append_top_shape in Hy.
      cbn [consume state state_stack stack] in Hy.
      destruct Hy as (Hs1 & Hs2 & Hs3).
      right. repeat split; [congruence | congruence | lia]. }
    cbn in Hsel.
    destruct Hsel as [<-|[<-|[<-|[<-|[]]]]];
      cbn [actions next_state mkToken] in Hstep;
      try (apply Hsingle in Hstep; [| discriminate | discriminate];
           apply (Hkeep None); auto).
    cbn [run_actions run_action] in Hstep.
    unfold do_EndLiteralExpression, do_PopState in Hstep.
    cbn [consume stack processed_buffer state_stack] in Hstep.
    destruct (stack lx) as [|arg [|top rest']] eqn:Hs; cbn in Hdeep; try lia.
    cbn in Hstep. rewrite Hss in Hstep. cbn in Hstep.
    injection Hstep as <-. left. cbn. repeat split. discriminate.
Qed.

Lemma reaches_well_nested (lx lx' : lexer) :
  reaches H default_section parameter lx lx' ->
  well_nested lx -> well_nested lx'.
Proof.
  induction 1 as [|lx lx1 lx2 Hstep _ IH]; [auto |].
  intros Hinv. apply IH. eapply NextToken_well_nested; eauto.
Qed.

(** A literal is only closed where one is open: the second of the three
    situations never arises in an evaluation, and a [}] met outside of a
    literal is ordinary text. *)
Lemma literal_close_never_unbalanced (data pb : string) :
  Parse H default_section parameter data <>
  Raise (Unbalanced UnbalancedLiteral pb).
Proof.
  intros Hparse.
  destruct (proj1 (Parse_unbalanced_iff H default_section parameter data
                     UnbalancedLiteral)) as (lx & Hreach & Hat);
    [now exists pb |].
  apply reaches_well_nested in Hreach; [| left; cbn; repeat split; discriminate].
  destruct Hat as [(Hbuf & t & ps & rest & Hsel & Hin) Hlen].
  destruct Hreach as [(Hst & _ & _)|(_ & _ & Hdeep)]; [| lia].
  rewrite Hst, select_token_INITIAL in Hsel.
  apply select_token_In in Hsel. destruct Hsel as [Ht _].
  cbn in Ht.
  repeat (destruct Ht as [<-|Ht];
          [cbn in Hin;
           repeat (destruct Hin as [Hin|Hin]; [discriminate |]);
           exact Hin |]).
  destruct Ht.
Qed.

End Nesting.

(** A parse error of the evaluation started by [Get] leaves [Get] as a
    [ConfigFormatError]. *)
Lemma Get_surfaces_ConfigFormatError (X : externals) (fuel : nat) (cfg : config)
      (name : string) (verify environ : bool) (section key : string)
      (found : option type_info) (raw : pyobj) (data : string)
      (k : imbalance) (pb : string) :
  (if environ then environment cfg !! name else None) = None ->
  _GetSectionName name = Ok (section, key) ->
  _FindTypeInfo (S fuel) cfg (PyStr section) key = Ok found ->
  _GetValue (S fuel) cfg (PyStr section) key = Ok raw ->
  NewlineFixup raw = PyStr data ->
  Parse (manager_host X fuel cfg) (Some section)
        (ti_name (descriptor_for X found name)) data =
    Raise (Unbalanced k pb) ->
  exists msg,
    Get X (S fuel) cfg name verify environ = Raise (ConfigFormatError msg).
Proof.
  intros Henv Hname Hfound Hraw Hfix Hparse.
  unfold Get, Get_with. rewrite Henv, Hname. cbn [bind].
  rewrite Hfound. cbn [bind]. rewrite Hraw. cbn [bind]. rewrite Hfix.
  cbn [InterpolateValue].
  fold (descriptor_for X found name).
  change (res exn pyobj) with (result pyobj).
  match goal with
  | |- context [Parse ?h _ _ data] =>
      change h with (manager_host X fuel cfg)
  end.
  rewrite Hparse. cbn [to_result bind].
  destruct k; cbn [raised]; eauto.
Qed.

(** The parse errors of an evaluation, token by token: it fails with a
    parse error of its own exactly when it reaches the token [)] with a
    single accumulator on the stack (no [%(] open), a [}] closing a literal
    with a single accumulator on the stack, or the end of the input with
    more than one accumulator left; read through [Get], each of them is a
    [ConfigFormatError]. *)
Theorem interpolation_parse_errors (X : externals) :
  (forall (H : host) (ds p : option string) (data : string) (k : imbalance),
      (exists pb, Parse H ds p data = Raise (Unbalanced k pb)) <->
      (exists lx, reaches H ds p (new_lexer data) lx /\ unbalanced_at k lx)) /\
  (forall (fuel : nat) (cfg : config) (name : string) (verify environ : bool)
          (section key : string) (found : option type_info) (raw : pyobj)
          (data : string) (k : imbalance) (pb : string),
      (if environ then environment cfg !! name else None) = None ->
      _GetSectionName name = Ok (section, key) ->
      _FindTypeInfo (S fuel) cfg (PyStr section) key = Ok found ->
      _GetValue (S fuel) cfg (PyStr section) key = Ok raw ->
      NewlineFixup raw = PyStr data ->
      Parse (manager_host X fuel cfg) (Some section)
            (ti_name (descriptor_for X found name)) data =
        Raise (Unbalanced k pb) ->
      exists msg,
        Get X (S fuel) cfg name verify environ = Raise (ConfigFormatError msg)).
Proof.
  split.
  - intros H ds p data k. apply Parse_unbalanced_iff.
  - intros. eapply Get_surfaces_ConfigFormatError; eauto.
Qed.

Lemma interpolation_parse_errors_witness :
  exists msg,
    Get sample_externals 2 unbalanced_config "Sec.k" false true =
      Raise (ConfigFormatError msg).
Proof.
  destruct (interpolation_parse_errors sample_externals) as [_ Hget].
  apply (Hget 1%nat unbalanced_config "Sec.k" false true "Sec" "k" None
              (PyStr "%(abc") "%(abc" NestedNotBalanced "%(abc");
    reflexivity.
Defined.

(** The examples of the specification. *)
Example missing_close (H : host) (ds p : option string) :
  Parse H ds p "%(abc" = Raise (Unbalanced NestedNotBalanced "%(abc").
Proof. reflexivity. Qed.

Example close_without_open (H : host) (ds p : option string) :
  Parse H ds p ")" = Raise (Unbalanced UnbalancedParenthesis ")").
Proof. reflexivity. Qed.

(** C4, where the code departs from the specification: a [)] that ends a
    filter suffix while no [%(] is open is read without the check that
    [ExpandArg] makes.  [Filter] pops the only accumulator and the append
    that follows raises [IndexError], which is not a parse error and
    leaves [Get] as it is, not as a [ConfigFormatError]. *)
Theorem filter_close_without_open (X : externals) :
  (forall (fuel : nat) (cfg : config) (ds p : option string),
      Parse (manager_host X fuel cfg) ds p "x|lower)" =
        Raise (Foreign IndexError)) /\
  (forall verify : bool,
      Get X 2 filter_config "Sec.k" verify true = Raise IndexError).
Proof.
  split.
  - intros fuel cfg ds p. reflexivity.
  - intros verify. reflexivity.
Qed.

(** Outside of a literal a close brace is an ordinary character. *)
Example close_brace_alone (H : host) (ds p : option string) :
  Parse H ds p "}" = Ok "}".
Proof. reflexivity. Qed.

(** ** Literal regions *)

(** C6, where the code departs from the specification: in a literal
    region a backslash that follows ordinary text is taken with that text
    by the token [[^}]+], so the close brace after it ends the region:
    [%{a\}b}] evaluates to [a\b}] and not to [a}b]. *)
Theorem literal_escaped_brace_ends_region (H : host) (ds p : option string) :
  Parse H ds p "%{a\}b}" = Ok "a\b}".
Proof. reflexivity. Qed.

(** The escape works at the start of the region, where the backslash is
    the first character the lexer looks at. *)
Example literal_escaped_brace_at_start (H : host) (ds p : option string) :
  Parse H ds p "%{\}}" = Ok "}".
Proof. reflexivity. Qed.

Example literal_suppression (H : host) (ds p : option string) :
  Parse H ds p "%{a%(b)c}" = Ok "a%(b)c".
Proof. reflexivity. Qed.

Lemma span_literal_body (content : string) :
  contains "}" content = false ->
  span literal_class (content +:+ "}") = (content, "}").
Proof.
  induction content as [|c r IH]; [reflexivity |].
  cbn [contains]. intros Hno. apply orb_false_iff in Hno.
  destruct Hno as [Hc Hr].
  rewrite append_cons. cbn [span].
  assert (in_charset c literal_class = true) as ->.
  { unfold in_charset, literal_class, char_in. cbn [existsb].
    now rewrite Hc. }
  now rewrite (IH Hr).
Qed.

(** The text of a literal region that holds neither a close brace nor a
    backslash is appended as it stands: nothing in it is expanded. *)
Lemma literal_region_verbatim (H : host) (ds p : option string)
      (content : string) :
  contains "}" content = false ->
  contains backslash content = false ->
  Parse H ds p ("%{" +:+ content +:+ "}") = Ok content.
Proof.
  intros Hbrace Hback. unfold Parse.
  destruct content as [|c r].
  - reflexivity.
  - cbn [contains] in Hbrace, Hback.
    apply orb_false_iff in Hbrace, Hback.
    destruct Hbrace as [Hc1 Hr1], Hback as [Hc2 Hr2].
    assert (select_token "Literal" (String c (r +:+ "}")) tokens =
            Some (token_at 3, [String c r], "}")) as Hsel.
    { unfold tokens.
      do 3 (rewrite select_token_skip;
            [| cbn [tregex mkToken re_match in_charset];
               rewrite ?Hc1, ?Hc2; reflexivity]).
      apply select_token_hit; [reflexivity |].
      change (tregex (token_at 3)) with [Many literal_class].
      rewrite re_match_Many.
      assert (in_charset c literal_class = true) as ->.
      { unfold in_charset, literal_class, char_in. cbn [existsb].
        now rewrite Hc1. }
      now rewrite (span_literal_body r Hr1). }
    assert (String.length ("%{" +:+ String c r +:+ "}") =
            S (S (S (S (String.length r))))) as ->.
    { rewrite !length_append. cbn. lia. }
    cbn [Close].
    change (NextToken H ds p (new_lexer ("%{" +:+ String c r +:+ "}")))
      with (@Ok lexerr _
              (Some {| buffer := String c (r +:+ "}"); state := "Literal";
                       state_stack := ["INITIAL"]; processed_buffer := "%{";
                       stack := [EmptyString; EmptyString] |})).
    cbn [bind buffer].
    unfold NextToken at 1. cbn [buffer state]. rewrite Hsel.
    cbn [actions token_at tokens nth mkToken run_actions run_action
         do_AppendArg append_top consume stack set_stack bind next_state
         truthy_state buffer state state_stack processed_buffer group0
         fold_right].
    rewrite !append_nil_r. reflexivity.
Qed.

(** ** Missing parameters *)

(** C7: when a [)] closes an expansion whose text names a parameter that
    is not in the environment and has no value in any layer (the layered
    lookup ends with [None]), the reference contributes the empty string
    to the enclosing accumulator and the token is read without an error,
    provided the descriptor in charge renders the empty string as the
    empty string. *)
Theorem missing_parameter_is_empty (X : externals) (fuel : nat) (cfg : config)
        (ds p : option string) (buf pb name top : string)
        (ss rest : list string) (section key : string)
        (found : option type_info) :
  let parameter_name :=
    if contains "." name then name else py_str ds +:+ "." +:+ name in
  split1 "." parameter_name = Some (section, key) ->
  environment cfg !! parameter_name = None ->
  _GetValue fuel cfg (PyStr section) key = Ok PyNone ->
  _FindTypeInfo fuel cfg (PyStr section) key = Ok found ->
  ToString (match found with
            | Some t => t
            | None => String_ X None
            end) (PyStr EmptyString) = EmptyString ->
  NextToken (manager_host X fuel cfg) ds p
    {| buffer := String ")" buf; state := "INITIAL"; state_stack := ss;
       processed_buffer := pb; stack := name :: top :: rest |} =
  Ok (Some {| buffer := buf; state := "INITIAL"; state_stack := ss;
              processed_buffer := pb +:+ ")"; stack := top :: rest |}).
Proof.
  intros parameter_name Hsplit Henv Hvalue Hfound Hempty.
  unfold NextToken. cbn [buffer state].
  change (select_token "INITIAL" (String ")" buf) tokens)
    with (Some (token_at 7, [String ")" EmptyString], buf)).
  cbn [actions token_at tokens nth mkToken run_actions run_action
       next_state consume].
  unfold do_ExpandArg. cbn [stack consume length Nat.leb].
  fold parameter_name.
  assert (config_getitem (manager_host X fuel cfg) parameter_name = Ok PyNone)
    as Hget.
  { cbn [config_getitem manager_host]. unfold Get, Get_with.
    rewrite Henv. unfold _GetSectionName. rewrite Hsplit. cbn [bind].
    rewrite Hfound. cbn [bind]. rewrite Hvalue. cbn [bind NewlineFixup].
    destruct fuel; reflexivity. }
  assert (config_FindTypeInfo (manager_host X fuel cfg) parameter_name = Ok found)
    as Hti.
  { cbn [config_FindTypeInfo manager_host]. unfold FindTypeInfo.
    now rewrite Hsplit. }
  rewrite Hget. cbn [from_callee bind]. rewrite Hti. cbn [from_callee bind].
  cbn [String_default manager_host]. rewrite Hempty.
  cbn. now rewrite append_nil_r.
Qed.

Lemma missing_parameter_is_empty_witness :
  NextToken (manager_host sample_externals 2 new_config) (Some "Sec") None
    {| buffer := ")b"; state := "INITIAL"; state_stack := [];
       processed_buffer := "a%(missing"; stack := ["missing"; "a"] |} =
  Ok (Some {| buffer := "b"; state := "INITIAL"; state_stack := [];
              processed_buffer := "a%(missing)"; stack := ["a"] |}).
Proof.
  apply (missing_parameter_is_empty sample_externals 2 new_config (Some "Sec")
           None "b" "a%(missing" "missing" "a" [] [] "Sec" "missing" None);
    reflexivity.
Defined.

(** The whole evaluation of a value that refers to a missing parameter. *)
Example missing_parameter_evaluation :
  Parse (manager_host sample_externals 2 new_config) (Some "Sec") None
        "a%(missing)b" = Ok "ab".
Proof. reflexivity. Qed.

Lemma _GetValue_layers_then_inheritance_witness :
  _GetValue 2 inheriting_config (PyStr "A") "key" = Ok (PyStr "v").
Proof.
  destruct (_GetValue_layers_then_inheritance inheriting_config (PyStr "A") "key")
    as (_ & _ & _ & Hinherit).
  rewrite (Hinherit 0%nat (PyStr "B")) by reflexivity.
  destruct (_GetValue_layers_then_inheritance inheriting_config (PyStr "B") "key")
    as (_ & Hown & _).
  apply Hown; reflexivity.
Defined.

(** * Further properties of the module *)

(** ** Parameter names *)

Lemma split1_None (c : ascii) (s : string) :
  split1 c s = None <-> contains c s = false.
Proof.
  induction s as [|a s IH]; [now split |].
  cbn [split1 contains]. destruct (ascii_eqb a c); cbn [orb].
  - split; discriminate.
  - destruct (split1 c s) as [[l r]|].
    + split; [discriminate |]. intros Hno. apply IH in Hno. discriminate.
    + split; [intros _; now apply IH | reflexivity].
Qed.

Lemma split1_Some (c : ascii) (s l r : string) :
  split1 c s = Some (l, r) ->
  s = l +:+ String c r /\ contains c l = false.
Proof.
  revert l. induction s as [|a s IH]; intros l; [discriminate |].
  cbn [split1]. destruct (ascii_eqb a c) eqn:Hac.
  - intros Heq. injection Heq as <- <-. apply ascii_eqb_eq in Hac. subst a.
    now split.
  - destruct (split1 c s) as [[l' r']|]; [| discriminate].
    intros Heq. injection Heq as <- <-.
    destruct (IH l' eq_refl) as [-> Hno].
    split; [reflexivity |]. cbn [contains]. now rewrite Hac.
Qed.

Lemma split1_join (c : ascii) (l r : string) :
  contains c l = false ->
  split1 c (l +:+ String c r) = Some (l, r).
Proof.
  induction l as [|a l IH]; intros Hno.
  - rewrite append_nil_l. cbn [split1]. now rewrite ascii_eqb_refl.
  - cbn [contains] in Hno. apply orb_false_iff in Hno. destruct Hno as [Ha Hl].
    rewrite append_cons. cbn [split1]. now rewrite Ha, (IH Hl).
Qed.

Lemma _GetSectionName_Ok (name section key : string) :
  _GetSectionName name = Ok (section, key) ->
  name = section +:+ "." +:+ key /\ contains "." section = false.
Proof.
  unfold _GetSectionName.
  destruct (split1 "." name) as [[s k]|] eqn:Hs; [| discriminate].
  intros Heq. injection Heq as <- <-. now apply split1_Some in Hs.
Qed.

Lemma _GetSectionName_join (section key : string) :
  contains "." section = false ->
  _GetSectionName (section +:+ "." +:+ key) = Ok (section, key).
Proof.
  intros Hno. unfold _GetSectionName.
  change (section +:+ "." +:+ key) with (section +:+ String "." key).
  now rewrite (split1_join "." section key Hno).
Qed.

(** X1: [_GetSectionName] cuts a name at its first dot.  A name without a
    dot is refused with [RuntimeError]; otherwise the section is the text
    before the first dot (so it holds no dot), the key is everything after
    it, and joining them with a dot gives the name back. *)
Theorem _GetSectionName_first_dot :
  (forall name,
      contains "." name = false ->
      _GetSectionName name = Raise (RuntimeError "Section not specified")) /\
  (forall name section key,
      _GetSectionName name = Ok (section, key) ->
      name = section +:+ "." +:+ key /\ contains "." section = false) /\
  (forall section key,
      contains "." section = false ->
      _GetSectionName (section +:+ "." +:+ key) = Ok (section, key)).
Proof.
  split; [| split].
  - intros name Hno. unfold _GetSectionName.
    apply split1_None in Hno. now rewrite Hno.
  - apply _GetSectionName_Ok.
  - apply _GetSectionName_join.
Qed.

Lemma _GetSectionName_first_dot_witness :
  _GetSectionName "Logging" = Raise (RuntimeError "Section not specified") /\
  _GetSectionName ("Client" +:+ "." +:+ "proxy.host") = Ok ("Client", "proxy.host").
Proof.
  destruct _GetSectionName_first_dot as (Hnone & _ & Hjoin).
  split; [apply Hnone | apply Hjoin]; reflexivity.
Defined.


(** ** [Set], [SetRaw] and [SetEnv] *)

Lemma raw_lookup_store_section (cfg : config) (section : string)
      (d : gmap string string) (s k : string) :
  raw_lookup (raw_data (store_section section d cfg)) s k =
  if decide (s = section) then d !! k else raw_lookup (raw_data cfg) s k.
Proof.
  unfold raw_lookup, store_section. cbn [raw_data set_raw_data].
  destruct (decide (s = section)) as [->|Hne].
  - now rewrite lookup_insert_eq.
  - now rewrite lookup_insert_ne by congruence.
Qed.

Lemma section_data_lookup (cfg : config) (section k : string) :
  section_data cfg section !! k = raw_lookup (raw_data cfg) section k.
Proof. unfold section_data. apply default_empty_lookup. Qed.

Lemma store_section_layers (cfg : config) (section : string)
      (d : gmap string string) :
  environment (store_section section d cfg) = environment cfg /\
  defaults (store_section section d cfg) = defaults cfg /\
  type_infos (store_section section d cfg) = type_infos cfg.
Proof. now repeat split. Qed.

(** X2: whatever its outcome, [Set] leaves the environment, the defaults
    and the descriptors as they are, and in Raw Data it changes nothing but
    the parameter it is given: every other [section.key] keeps its value
    or its absence. *)
Theorem Set_changes_one_parameter (X : externals) (fuel : nat)
        (cfg cfg' : config) (name : string) (value : pyobj) (verify : bool)
        (r : result unit) :
  Set_ X fuel cfg name value verify = (cfg', r) ->
  environment cfg' = environment cfg /\
  defaults cfg' = defaults cfg /\
  type_infos cfg' = type_infos cfg /\
  forall s k,
    name <> s +:+ "." +:+ k ->
    raw_lookup (raw_data cfg') s k = raw_lookup (raw_data cfg) s k.
Proof.
  unfold Set_. intros HSet.
  destruct (_GetSectionName name) as [[section key]| |] eqn:Hname;
    try (injection HSet as <- _; now repeat split).
  apply _GetSectionName_Ok in Hname. destruct Hname as [-> _].
  destruct (String.eqb (lower section) "environment");
    [injection HSet as <- _; now repeat split |].
  destruct (_FindTypeInfo fuel cfg (PyStr section) key) as [found| |];
    try (injection HSet as <- _; now repeat split).
  assert (forall d : gmap string string,
             (forall k, k <> key -> d !! k = section_data cfg section !! k) ->
             forall s k,
               section +:+ "." +:+ key <> s +:+ "." +:+ k ->
               raw_lookup (raw_data (store_section section d cfg)) s k =
               raw_lookup (raw_data cfg) s k) as Hother.
  { intros d Hd s k Hne. rewrite raw_lookup_store_section.
    destruct (decide (s = section)) as [->|Hs]; [| reflexivity].
    rewrite Hd by congruence. apply section_data_lookup. }
  assert (forall k, k <> key ->
             (if is_None value
              then delete key (section_data cfg section)
              else section_data cfg section) !! k =
             section_data cfg section !! k) as Hpop.
  { intros k Hk. destruct (is_None value); [| reflexivity].
    now rewrite lookup_delete_ne by congruence. }
  match type of HSet with
  | (match ?c with _ => _ end) = _ => destruct c
  end; injection HSet as <- _;
    (split; [reflexivity | split; [reflexivity | split; [reflexivity |]]]);
    apply Hother; intros k Hk; rewrite ?lookup_insert_ne by congruence;
    now apply Hpop.
Qed.

(** A manager with two sections. *)
Lemma Set_changes_one_parameter_witness :
  raw_lookup
    (raw_data (fst (Set_ sample_externals 1 two_sections "Sec.k"
                         (PyStr "new") true)))
    "Other" "j" = Some "w".
Proof.
  destruct (Set_changes_one_parameter sample_externals 1 two_sections
              (fst (Set_ sample_externals 1 two_sections "Sec.k"
                         (PyStr "new") true))
              "Sec.k" (PyStr "new") true
              (snd (Set_ sample_externals 1 two_sections "Sec.k"
                         (PyStr "new") true))
              (surjective_pairing _))
    as (_ & _ & _ & Hother).
  rewrite (Hother "Other" "j"); [reflexivity | discriminate].
Defined.

(** X3: a call of [Set] that does not return normally (no section in the
    name, the reserved section, a value the descriptor rejects) stores
    nothing: every parameter of Raw Data reads as before the call. *)
Theorem Set_failure_stores_nothing (X : externals) (fuel : nat)
        (cfg cfg' : config) (name : string) (value : pyobj) (verify : bool)
        (r : result unit) :
  Set_ X fuel cfg name value verify = (cfg', r) ->
  r <> Ok tt ->
  forall s k, raw_lookup (raw_data cfg') s k = raw_lookup (raw_data cfg) s k.
Proof.
  unfold Set_. intros HSet Hfail s k.
  destruct (_GetSectionName name) as [[section key]| |];
    try (injection HSet as <- _; reflexivity).
  destruct (String.eqb (lower section) "environment");
    [injection HSet as <- _; reflexivity |].
  destruct (_FindTypeInfo fuel cfg (PyStr section) key) as [found| |];
    try (injection HSet as <- _; reflexivity).
  destruct (is_None value) eqn:Hnone.
  - injection HSet as _ <-. now destruct Hfail.
  - match type of HSet with
    | (match ?c with _ => _ end) = _ => destruct c as [[]| |]
    end; injection HSet as <- <-; try (now destruct Hfail);
      rewrite raw_lookup_store_section;
      (destruct (decide (s = section)) as [->|Hs]; [| reflexivity]);
      apply section_data_lookup.
Qed.

Lemma Set_failure_stores_nothing_witness :
  raw_lookup
    (raw_data (fst (Set_ sample_externals 1 overridden_config "Sec.k"
                         (PyInt 7) true)))
    "Sec" "k" = Some ")".
Proof.
  rewrite (Set_failure_stores_nothing sample_externals 1 overridden_config
             (fst (Set_ sample_externals 1 overridden_config "Sec.k"
                        (PyInt 7) true))
             "Sec.k" (PyInt 7) true
             (snd (Set_ sample_externals 1 overridden_config "Sec.k"
                        (PyInt 7) true))
             (surjective_pairing _));
    [reflexivity | vm_compute; discriminate].
Defined.

(** X4: the section name [Environment], in any mix of upper and lower
    case, is closed to [Set]: the call raises [RuntimeError] and the
    manager is left as it was. *)
Theorem Set_environment_reserved (X : externals) (fuel : nat) (cfg : config)
        (section key : string) (value : pyobj) (verify : bool) :
  contains "." section = false ->
  lower section = "environment" ->
  Set_ X fuel cfg (section +:+ "." +:+ key) value verify =
    (cfg, Raise (RuntimeError "Use SetEnv for setting environment variables.")).
Proof.
  intros Hdot Hlow. unfold Set_.
  rewrite (_GetSectionName_join section key Hdot), Hlow. reflexivity.
Qed.

Lemma Set_environment_reserved_witness :
  Set_ sample_externals 1 new_config ("EnViRonment" +:+ "." +:+ "component")
       (PyStr "GRR") true =
    (new_config,
     Raise (RuntimeError "Use SetEnv for setting environment variables.")).
Proof.
  apply (Set_environment_reserved sample_externals 1 new_config "EnViRonment"
           "component" (PyStr "GRR") true); reflexivity.
Defined.

Lemma raw_value_lookup (cfg : config) (s k : string) :
  raw_value cfg (PyStr s) k =
  Ok (match raw_lookup (raw_data cfg) s k with
      | Some v => PyStr v
      | None => PyNone
      end).
Proof.
  unfold raw_value, dict_get, raw_lookup. cbn [bind].
  now destruct (raw_data cfg !! s).
Qed.

(** A parameter of Raw Data is found at once, whatever the other layers
    and the inheritance marker say. *)
Lemma _GetValue_raw (fuel : nat) (cfg : config) (s k v : string) :
  raw_lookup (raw_data cfg) s k = Some v ->
  _GetValue (S fuel) cfg (PyStr s) k = Ok (PyStr v).
Proof.
  intros Hraw. rewrite _GetValue_unfold. unfold first_found.
  rewrite raw_value_lookup, Hraw. reflexivity.
Qed.

(** X5: [SetRaw] followed by [GetRaw] gives back the rendering
    [ToString(value)] of the descriptor in charge, character for
    character: nothing is escaped on the way in and nothing is
    interpolated on the way out. *)
Theorem SetRaw_then_GetRaw (X : externals) (fuel : nat) (cfg cfg' : config)
        (name : string) (value : pyobj) :
  SetRaw X fuel cfg name value = (cfg', Ok tt) ->
  environment cfg !! name = None ->
  exists section key found,
    _GetSectionName name = Ok (section, key) /\
    _FindTypeInfo fuel (store_section section (section_data cfg section) cfg)
                  (PyStr section) key = Ok found /\
    forall n,
      GetRaw (S n) cfg' name =
        Ok (PyStr (ToString (descriptor_for X found name) value)).
Proof.
  unfold SetRaw. intros HSet Henv.
  destruct (_GetSectionName name) as [[section key]| |] eqn:Hname;
    try (injection HSet as _ Hr; discriminate).
  destruct (_FindTypeInfo fuel
              (store_section section (section_data cfg section) cfg)
              (PyStr section) key) as [found| |] eqn:Hfound;
    try (injection HSet as _ Hr; discriminate).
  injection HSet as <-.
  exists section, key, found. split; [reflexivity | split; [exact Hfound |]].
  intros n. unfold GetRaw. cbn [environment store_section set_raw_data].
  rewrite Henv, Hname. cbn [bind].
  apply _GetValue_raw. rewrite raw_lookup_store_section.
  destruct (decide (section = section)); [| congruence].
  apply lookup_insert_eq.
Qed.

Lemma SetRaw_then_GetRaw_witness :
  GetRaw 1 (fst (SetRaw sample_externals 1 new_config "Sec.k" (PyStr "%(a")))
         "Sec.k" = Ok (PyStr "%(a").
Proof.
  destruct (SetRaw_then_GetRaw sample_externals 1 new_config
              (fst (SetRaw sample_externals 1 new_config "Sec.k" (PyStr "%(a")))
              "Sec.k" (PyStr "%(a") eq_refl eq_refl)
    as (section & key & found & Hname & Hfound & Hget).
  rewrite Hget. injection Hname as <- <-.
  vm_compute in Hfound. injection Hfound as <-. reflexivity.
Defined.

(** X6: a value put in the environment with [SetEnv] under the full name
    of a parameter is what [Get] (with [environ]), [GetRaw] and [GetEnv]
    return from then on, whatever Raw Data holds for that name; the other
    environment entries and Raw Data itself stay as they are. *)
Theorem SetEnv_overrides (X : externals) (fuel : nat) (cfg : config)
        (name : string) (value : pyobj) (verify : bool) :
  Get X fuel (SetEnv name value cfg) name verify true = Ok value /\
  GetRaw fuel (SetEnv name value cfg) name = Ok value /\
  GetEnv (SetEnv name value cfg) name = value /\
  (forall other, other <> name ->
                 GetEnv (SetEnv name value cfg) other = GetEnv cfg other) /\
  raw_data (SetEnv name value cfg) = raw_data cfg.
Proof.
  unfold Get, Get_with, GetRaw, GetEnv, SetEnv.
  cbn [environment raw_data set_environment].
  rewrite lookup_insert_eq.
  repeat split.
  intros other Hne. now rewrite lookup_insert_ne by congruence.
Qed.

(** ** [MergeData] *)

Lemma merge_section_union (data d : gmap string string) :
  merge_section data d = data ∪ d.
Proof.
  apply map_eq. intros k. rewrite merge_section_lookup, lookup_union.
  now destruct (data !! k), (d !! k).
Qed.

(** What a merge does to one section. *)
Lemma MergeData_section (incoming : gmap string (gmap string string))
      (cfg : config) (s : string) :
  raw_data (MergeData incoming cfg) !! s =
  match incoming !! s with
  | Some data => Some (data ∪ default ∅ (raw_data cfg !! s))
  | None => raw_data cfg !! s
  end.
Proof.
  unfold MergeData. cbn [raw_data set_raw_data].
  apply (map_fold_weak_ind
           (fun r (m : gmap string (gmap string string)) =>
              r !! s =
              match m !! s with
              | Some data => Some (data ∪ default ∅ (raw_data cfg !! s))
              | None => raw_data cfg !! s
              end)).
  - now rewrite lookup_empty.
  - intros i data m r Hfresh IH.
    destruct (decide (i = s)) as [->|Hne].
    + rewrite !lookup_insert_eq, merge_section_union.
      rewrite Hfresh in IH. now rewrite IH.
    + now rewrite !lookup_insert_ne by congruence.
Qed.

Lemma config_eq (a b : config) :
  environment a = environment b -> raw_data a = raw_data b ->
  defaults a = defaults b -> type_infos a = type_infos b -> a = b.
Proof. destruct a, b. cbn. now intros -> -> -> ->. Qed.

(** X7: [MergeData] works section by section.  A section of the incoming
    data is laid over the section of the same name (a section that was not
    there is created, even when the incoming one is empty), every other
    section is kept, and so the sections after the merge are those of both
    sides; the environment, the defaults and the descriptors are not
    touched. *)
Theorem MergeData_sections (incoming : gmap string (gmap string string))
        (cfg : config) :
  (forall s,
      raw_data (MergeData incoming cfg) !! s =
      match incoming !! s with
      | Some data => Some (data ∪ default ∅ (raw_data cfg !! s))
      | None => raw_data cfg !! s
      end) /\
  dom (raw_data (MergeData incoming cfg)) = dom incoming ∪ dom (raw_data cfg) /\
  environment (MergeData incoming cfg) = environment cfg /\
  defaults (MergeData incoming cfg) = defaults cfg /\
  type_infos (MergeData incoming cfg) = type_infos cfg.
Proof.
  split; [apply MergeData_section |].
  split; [| now repeat split].
  apply set_eq. intros s.
  rewrite elem_of_union, !elem_of_dom, MergeData_section.
  destruct (incoming !! s) as [data|].
  - split; [intros _; left; eauto | intros _; eauto].
  - split; [now right | intros [[? Hbad]|Hold]; [discriminate | exact Hold]].
Qed.

(** X8: loading S1 and then S2 is the same as loading once the overlay of
    S2 on S1; in particular loading the same source twice changes nothing
    more than loading it once. *)
Theorem MergeData_composes (S1 S2 : gmap string (gmap string string))
        (cfg : config) :
  MergeData S2 (MergeData S1 cfg) = MergeData (overlay S2 S1) cfg /\
  MergeData S1 (MergeData S1 cfg) = MergeData S1 cfg.
Proof.
  assert (forall A B : gmap string (gmap string string),
             MergeData B (MergeData A cfg) = MergeData (overlay B A) cfg)
    as Hcompose.
  { intros A B. apply config_eq; try reflexivity.
    apply map_eq. intros s. rewrite !MergeData_section.
    unfold overlay. rewrite lookup_union_with.
    destruct (B !! s) as [d2|], (A !! s) as [d1|]; cbn;
      try reflexivity.
    now rewrite (assoc (∪)). }
  split; [apply Hcompose |].
  rewrite Hcompose. apply config_eq; try reflexivity.
  apply map_eq. intros s. rewrite !MergeData_section.
  unfold overlay. rewrite lookup_union_with.
  destruct (S1 !! s) as [d|]; cbn; [| reflexivity].
  now rewrite (idemp (∪)).
Qed.

(** X9: a parameter that a loaded source defines is what [GetRaw] returns
    afterwards, as the source has it, unless the environment holds the
    full name. *)
Theorem MergeData_then_GetRaw (incoming : gmap string (gmap string string))
        (cfg : config) (section key v : string) (fuel : nat) :
  contains "." section = false ->
  raw_lookup incoming section key = Some v ->
  environment cfg !! (section +:+ "." +:+ key) = None ->
  GetRaw (S fuel) (MergeData incoming cfg) (section +:+ "." +:+ key) =
    Ok (PyStr v).
Proof.
  intros Hdot Hinc Henv. unfold GetRaw.
  change (environment (MergeData incoming cfg)) with (environment cfg).
  rewrite Henv, (_GetSectionName_join section key Hdot). cbn [bind].
  apply _GetValue_raw. unfold raw_lookup in *.
  rewrite MergeData_section.
  destruct (incoming !! section) as [data|]; [| discriminate].
  cbn in *. now apply lookup_union_Some_l.
Qed.

Lemma MergeData_then_GetRaw_witness :
  GetRaw 1 (MergeData {["Sec" := {["k" := "new"]}]}
                      (store_section "Sec" {["k" := "old"; "j" := "w"]} new_config))
         ("Sec" +:+ "." +:+ "k") = Ok (PyStr "new").
Proof.
  apply (MergeData_then_GetRaw {["Sec" := {["k" := "new"]}]}
           (store_section "Sec" {["k" := "old"; "j" := "w"]} new_config)
           "Sec" "k" "new" 0); reflexivity.
Defined.

(** ** [NewlineFixup] *)

Lemma splitlines_from_single_line (s cur : string) :
  no_linebreak s = true ->
  splitlines_from cur s =
  match cur +:+ s with
  | EmptyString => []
  | line => [line]
  end.
Proof.
  revert cur. induction s as [|c s IH]; intros cur Hs.
  - rewrite append_nil_r. now destruct cur.
  - cbn [no_linebreak] in Hs.
    apply andb_true_iff in Hs. destruct Hs as [Hc Hs].
    apply andb_true_iff in Hc. destruct Hc as [Hlf Hcr].
    apply negb_true_iff in Hlf, Hcr.
    cbn [splitlines_from]. rewrite Hlf, Hcr, (IH _ Hs), append_assoc.
    reflexivity.
Qed.

(** X10: on a string of one line [NewlineFixup] returns the string, with a
    line feed added exactly when the line starts with [DEK-Info:]; an
    object that is not a string is returned as it is. *)
Theorem NewlineFixup_single_line :
  (forall s,
      no_linebreak s = true ->
      NewlineFixup (PyStr s) =
      PyStr (if startswith DEK_marker s
             then s +:+ String newline EmptyString
             else s)) /\
  (forall v, (forall s, v <> PyStr s) -> NewlineFixup v = v).
Proof.
  split.
  - intros s Hs. unfold NewlineFixup, splitlines.
    rewrite (splitlines_from_single_line s EmptyString Hs), append_nil_l.
    destruct s as [|c s]; [reflexivity |].
    cbn [flat_map]. fold DEK_marker.
    destruct (startswith DEK_marker (String c s)); cbn [app join flat_map].
    + now rewrite append_nil_r.
    + reflexivity.
  - intros v Hv. destruct v; try reflexivity. now destruct (Hv s).
Qed.

Lemma NewlineFixup_single_line_witness :
  NewlineFixup (PyStr "DEK-Info: AES-128-CBC,5F") =
    PyStr ("DEK-Info: AES-128-CBC,5F" +:+ String newline EmptyString) /\
  NewlineFixup (PyStr "Proc-Type: 4,ENCRYPTED") = PyStr "Proc-Type: 4,ENCRYPTED" /\
  NewlineFixup (PyInt 3) = PyInt 3.
Proof.
  destruct NewlineFixup_single_line as [Hline Hother].
  split; [| split].
  - apply (Hline "DEK-Info: AES-128-CBC,5F"). reflexivity.
  - apply (Hline "Proc-Type: 4,ENCRYPTED"). reflexivity.
  - apply Hother. discriminate.
Defined.

Lemma NewlineFixup_plain (s : string) :
  no_linebreak s = true ->
  startswith DEK_marker s = false ->
  NewlineFixup (PyStr s) = PyStr s.
Proof.
  intros Hs Hm. unfold NewlineFixup, splitlines.
  rewrite (splitlines_from_single_line s EmptyString Hs), append_nil_l.
  destruct s as [|c s]; [reflexivity |].
  cbn [flat_map]. fold DEK_marker. rewrite Hm. reflexivity.
Qed.

(** ** [Set] followed by [Get] *)

Lemma no_linebreak_EscapeString (s : string) :
  no_linebreak (EscapeString s) = no_linebreak s.
Proof.
  induction s as [|c s IH]; [reflexivity |].
  cbn [EscapeString]. destruct (char_in c escape_class);
    cbn [no_linebreak]; now rewrite IH.
Qed.

Lemma prefix_EscapeString (p s : string) :
  (forall c, contains c p = true -> char_in c escape_class = false) ->
  String.prefix p (EscapeString s) = String.prefix p s.
Proof.
  revert s. induction p as [|a p IH]; intros s Hp.
  { destruct s as [|b s]; [reflexivity |].
    cbn [EscapeString]. now destruct (char_in b escape_class). }
  assert (char_in a escape_class = false) as Ha.
  { apply Hp. cbn [contains]. now rewrite ascii_eqb_refl. }
  assert (forall c, contains c p = true -> char_in c escape_class = false)
    as Hp'.
  { intros c Hc. apply Hp. cbn [contains]. rewrite Hc. apply orb_true_r. }
  destruct s as [|b s]; [reflexivity |].
  cbn [EscapeString].
  destruct (char_in b escape_class) eqn:Hb; cbn [String.prefix].
  - destruct (ascii_dec a backslash) as [->|_]; [discriminate |].
    destruct (ascii_dec a b) as [->|_]; [congruence | reflexivity].
  - destruct (ascii_dec a b); [now apply IH | reflexivity].
Qed.

Lemma startswith_marker_EscapeString (s : string) :
  startswith DEK_marker (EscapeString s) = startswith DEK_marker s.
Proof.
  unfold startswith. apply prefix_EscapeString.
  intros c Hc. unfold DEK_marker in Hc. cbn [contains] in Hc.
  repeat (apply orb_true_iff in Hc;
          destruct Hc as [Hc|Hc]; [apply ascii_eqb_eq in Hc; now subst c |]).
  discriminate.
Qed.

(** The evaluation of an escaped string, as [InterpolateValue] sees it. *)
Lemma Parse_escaped (H : host) (ds p : option string) (s : string) :
  to_result p (Parse H ds p (EscapeString s)) = Ok s.
Proof.
  unfold Parse.
  destruct (Close_EscapeString H ds p (S (String.length s)) s EmptyString
              EmptyString (S (String.length (EscapeString s)))) as [pb' Hrun].
  - lia.
  - pose proof (EscapeString_length s). lia.
  - change (new_lexer (EscapeString s))
      with (outer (EscapeString s) EmptyString EmptyString).
    rewrite Hrun. reflexivity.
Qed.

Lemma Set_environment_unchanged (X : externals) (fuel : nat)
      (cfg cfg' : config) (name : string) (value : pyobj) (verify : bool)
      (r : result unit) :
  Set_ X fuel cfg name value verify = (cfg', r) ->
  environment cfg' = environment cfg.
Proof.
  unfold Set_. intros HSet.
  destruct (_GetSectionName name) as [[section key]| |];
    try (injection HSet as <- _; reflexivity).
  destruct (String.eqb (lower section) "environment");
    [injection HSet as <- _; reflexivity |].
  destruct (_FindTypeInfo fuel cfg (PyStr section) key) as [found| |];
    try (injection HSet as <- _; reflexivity).
  match type of HSet with
  | (match ?c with _ => _ end) = _ => destruct c
  end; injection HSet as <- _; reflexivity.
Qed.

(** X11: what [Set] stores, [Get] reads back.  When the rendering
    [ToString(value)] is a single line that does not start with
    [DEK-Info:], a [Get] of the same name after a successful [Set]
    evaluates the stored text back to that rendering, whatever special
    characters it holds, and returns [FromString] of it (validated when
    [verify] asks for it). *)
Theorem Set_then_Get (X : externals) (fuel n : nat) (cfg cfg' : config)
        (name section key : string) (value result_value : pyobj)
        (verify verify' environ : bool) (found found' : option type_info) :
  Set_ X fuel cfg name value verify = (cfg', Ok tt) ->
  _GetSectionName name = Ok (section, key) ->
  _FindTypeInfo fuel cfg (PyStr section) key = Ok found ->
  (if environ then environment cfg !! name else None) = None ->
  no_linebreak (ToString (descriptor_for X found name) value) = true ->
  startswith DEK_marker (ToString (descriptor_for X found name) value) = false ->
  _FindTypeInfo (S n) cfg' (PyStr section) key = Ok found' ->
  FromString (descriptor_for X found' name)
             (ToString (descriptor_for X found name) value) = Ok result_value ->
  (verify' && negb (startswith "__" key) = true ->
   Validate (descriptor_for X found' name) result_value = Ok tt) ->
  Get X (S n) cfg' name verify' environ = Ok result_value.
Proof.
  intros HSet Hname Hfound Henv Hline Hmark Hfound' Hfrom Hvalid.
  pose proof (Set_environment_unchanged _ _ _ _ _ _ _ _ HSet) as Henv'.
  destruct (Set_stores_escaped _ _ _ _ _ _ _ HSet)
    as (section0 & key0 & found0 & Hname0 & Hfound0 & Hstored).
  rewrite Hname in Hname0. injection Hname0 as <- <-.
  rewrite Hfound in Hfound0. injection Hfound0 as <-.
  fold (descriptor_for X found name) in Hstored.
  set (s := ToString (descriptor_for X found name) value) in *.
  unfold Get, Get_with. rewrite Henv', Henv, Hname. cbn [bind].
  rewrite Hfound'. cbn [bind].
  rewrite (_GetValue_raw n cfg' section key _ Hstored). cbn [bind].
  rewrite NewlineFixup_plain;
    [| now rewrite no_linebreak_EscapeString
     | now rewrite startswith_marker_EscapeString].
  cbn [InterpolateValue]. fold (descriptor_for X found' name).
  change (res exn pyobj) with (result pyobj).
  rewrite Parse_escaped. cbn [bind]. rewrite Hfrom. cbn [bind].
  destruct (verify' && negb (startswith "__" key)).
  - now rewrite (Hvalid eq_refl).
  - reflexivity.
Qed.

Lemma Set_then_Get_witness :
  Get sample_externals 1
      (fst (Set_ sample_externals 1 new_config "Sec.k" (PyStr "50% {of} (x)\") true))
      "Sec.k" true true = Ok (PyStr "50% {of} (x)\").
Proof.
  apply (Set_then_Get sample_externals 1 0 new_config
           (fst (Set_ sample_externals 1 new_config "Sec.k"
                      (PyStr "50% {of} (x)\") true))
           "Sec.k" "Sec" "k" (PyStr "50% {of} (x)\") (PyStr "50% {of} (x)\")
           true true true None None); try reflexivity.
Defined.

(** ** What [Get] can raise *)






(** X13: a key that starts with two underscores (such as [__doc__]) is
    never validated: for such a name [Get] with [verify] does exactly what
    it does without. *)
Theorem Get_dunder_not_validated (X : externals) (fuel : nat) (cfg : config)
        (name section key : string) (environ : bool) :
  _GetSectionName name = Ok (section, key) ->
  startswith "__" key = true ->
  Get X fuel cfg name true environ = Get X fuel cfg name false environ.
Proof.
  intros Hname Hkey. unfold Get, Get_with.
  rewrite Hname. cbn [bind]. now rewrite Hkey.
Qed.

(** A descriptor for [Sec.__doc__] that rejects everything. *)
Lemma Get_dunder_not_validated_witness :
  Get sample_externals 1 documented_config "Sec.__doc__" true true =
  Get sample_externals 1 documented_config "Sec.__doc__" false true.
Proof.
  apply (Get_dunder_not_validated sample_externals 1 documented_config
           "Sec.__doc__" "Sec" "__doc__" true); reflexivity.
Defined.

(** ** Declared options *)

Lemma defaults_value_lookup (cfg : config) (s k : string) :
  defaults_value cfg (PyStr s) k =
  Ok (default PyNone (defaults cfg !! s ≫= (.!! k))).
Proof.
  unfold defaults_value, dict_get. cbn [bind].
  now destruct (defaults cfg !! s).
Qed.

(** X14: an option declared with [AddOption] is in force at once.  Its
    descriptor is the one [_FindTypeInfo] finds for the name, and while
    neither Raw Data nor the environment give the parameter a value, [Get]
    returns the declared default as it is when the default is neither a
    string nor [None] (a string default is interpolated first). *)
Theorem AddOption_then_Get (X : externals) (n : nat) (cfg : config)
        (descriptor : type_info) (section key : string) (environ : bool) :
  ti_name descriptor = Some (section +:+ "." +:+ key) ->
  contains "." section = false ->
  contains "." key = false ->
  exists cfg',
    AddOption descriptor cfg = (cfg', Ok tt) /\
    _FindTypeInfo (S n) cfg' (PyStr section) key = Ok (Some descriptor) /\
    (raw_lookup (raw_data cfg) section key = None ->
     environment cfg !! section = None ->
     environment cfg !! (section +:+ "." +:+ key) = None ->
     is_None (GetDefault descriptor) = false ->
     (forall s, GetDefault descriptor <> PyStr s) ->
     Get X (S n) cfg' (section +:+ "." +:+ key) false environ =
       Ok (GetDefault descriptor)).
Proof.
  intros Hname Hsec Hkey.
  assert (AddOption descriptor cfg =
          ({| environment := environment cfg;
              raw_data := raw_data cfg;
              defaults :=
                <[section := <[key := GetDefault descriptor]>
                               (default ∅ (defaults cfg !! section))]>
                  (defaults cfg);
              type_infos :=
                <[section +:+ "." +:+ key := descriptor]> (type_infos cfg) |},
           Ok tt)) as Hadd.
  { unfold AddOption. now rewrite Hname, (_GetSectionName_join _ _ Hsec). }
  assert (forall cfg1,
             defaults cfg1 !! section <> None ->
             type_infos cfg1 !! (section +:+ "." +:+ key) = Some descriptor ->
             _FindTypeInfo (S n) cfg1 (PyStr section) key = Ok (Some descriptor))
    as Hfind.
  { intros cfg1 Hdef Hti. cbn [_FindTypeInfo]. rewrite Hkey.
    cbn [dict_get bind].
    assert (exists sec, (match raw_data cfg1 !! section with
                         | Some d =>
                             if bool_decide (d = ∅)
                             then @Ok exn _ (defaults cfg1 !! section)
                             else Ok (Some (PyStr <$> d))
                         | None => Ok (defaults cfg1 !! section)
                         end) = Ok (Some sec)) as [sec ->].
    { destruct (defaults cfg1 !! section) as [dd|] eqn:Hdd; [| congruence].
      destruct (raw_data cfg1 !! section) as [d|];
        [destruct (bool_decide (d = ∅)) |]; eauto. }
    cbn [bind str_of]. now rewrite Hti. }
  eexists. split; [exact Hadd |].
  match goal with
  | |- _FindTypeInfo _ ?c _ _ = _ /\ _ => set (cfg' := c)
  end.
  assert (_FindTypeInfo (S n) cfg' (PyStr section) key = Ok (Some descriptor))
    as Hfound.
  { apply Hfind; unfold cfg'; cbn [defaults type_infos];
      rewrite lookup_insert_eq; [discriminate | reflexivity]. }
  split; [exact Hfound |].
  intros Hraw Henvsec Henv Hnone Hnostr.
  unfold Get, Get_with. change (environment cfg') with (environment cfg).
  rewrite Henv. replace (if environ then None else None) with (@None pyobj)
    by now destruct environ.
  rewrite (_GetSectionName_join _ _ Hsec). cbn [bind].
  rewrite Hfound. cbn [bind].
  assert (_GetValue (S n) cfg' (PyStr section) key = Ok (GetDefault descriptor))
    as ->.
  { rewrite _GetValue_unfold. unfold first_found.
    rewrite raw_value_lookup. change (raw_data cfg') with (raw_data cfg).
    rewrite Hraw. cbn [bind].
    unfold environment_value, dict_get.
    change (environment cfg') with (environment cfg).
    rewrite Henvsec. cbn [bind obj_get].
    rewrite defaults_value_lookup. unfold cfg'. cbn [defaults].
    rewrite lookup_insert_eq. cbn. rewrite lookup_insert_eq. cbn.
    now rewrite Hnone. }
  cbn [bind].
  destruct (GetDefault descriptor) eqn:Hd; try reflexivity.
  now destruct (Hnostr s).
Qed.

(** An integer option. *)
Lemma AddOption_then_Get_witness :
  exists cfg',
    AddOption rss_max new_config = (cfg', Ok tt) /\
    Get sample_externals 1 cfg' ("Client" +:+ "." +:+ "rss_max") false true =
      Ok (PyInt 4000).
Proof.
  destruct (AddOption_then_Get sample_externals 0 new_config rss_max
              "Client" "rss_max" true eq_refl eq_refl eq_refl)
    as (cfg' & Hadd & _ & Hget).
  exists cfg'. split; [exact Hadd |].
  apply Hget; try reflexivity. discriminate.
Defined.

(** ** Inheritance *)

(** X15: nothing guards [_GetValue] against a section that inherits from
    itself.  For a key such a section has no value for, the lookup asks
    the same question again and again: no recursion budget is enough for
    it to return (Python ends it at its recursion limit). *)
Theorem _GetValue_self_inheritance (cfg : config) (section_name : pyobj)
        (key : string) :
  first_found cfg section_name key = Ok PyNone ->
  startswith "@" key = false ->
  first_found cfg section_name inherit_key = Ok section_name ->
  is_None section_name = false ->
  forall fuel, _GetValue fuel cfg section_name key = OutOfFuel.
Proof.
  intros Hmissing Hat Hmarker Hsome fuel.
  induction fuel as [|fuel IH]; [reflexivity |].
  rewrite _GetValue_unfold, Hmissing. cbn [bind is_None andb].
  rewrite Hat. cbn [negb].
  destruct fuel as [|fuel]; [reflexivity |].
  rewrite (_GetValue_unfold fuel cfg section_name inherit_key), Hmarker.
  cbn [bind]. rewrite Hsome. cbn [andb bind]. rewrite Hsome. cbn [negb].
  exact IH.
Qed.

Lemma _GetValue_self_inheritance_witness :
  _GetValue 100 own_heir (PyStr "A") "key" = OutOfFuel.
Proof.
  apply (_GetValue_self_inheritance own_heir (PyStr "A") "key");
    reflexivity.
Defined.

(** X16: descriptors are inherited like values.  When the raw section of
    the child holds keys, among them the marker naming a parent, and no
    descriptor is declared for the child's key, [_FindTypeInfo] answers
    with the descriptor declared for that key in the parent. *)
Theorem _FindTypeInfo_inherited (cfg : config) (child parent key : string)
        (d : gmap string string) (descriptor : type_info) (n : nat) :
  contains "." key = false ->
  raw_data cfg !! child = Some d ->
  d !! inherit_key = Some parent ->
  parent <> EmptyString ->
  type_infos cfg !! (child +:+ "." +:+ key) = None ->
  type_infos cfg !! (parent +:+ "." +:+ key) = Some descriptor ->
  (exists dp, raw_data cfg !! parent = Some dp /\ dp <> ∅) \/
  (raw_data cfg !! parent = None /\ defaults cfg !! parent <> None) ->
  _FindTypeInfo (S (S n)) cfg (PyStr child) key = Ok (Some descriptor).
Proof.
  intros Hkey Hchild Hmarker Hparent Hnone Hdesc Hexists.
  assert (d <> ∅) as Hd.
  { intros ->. now rewrite lookup_empty in Hmarker. }
  cbn [_FindTypeInfo]. rewrite Hkey. cbn [dict_get bind].
  rewrite Hchild. rewrite bool_decide_eq_false_2 by exact Hd.
  cbn [bind str_of]. rewrite Hnone.
  rewrite lookup_fmap, Hmarker. cbn.
  assert (negb (String.eqb parent EmptyString) = true) as ->.
  { apply negb_true_iff. now apply String.eqb_neq. }
  destruct Hexists as [(dp & Hp & Hdp)|[Hp Hdef]]; rewrite Hp.
  - rewrite bool_decide_eq_false_2 by exact Hdp. cbn. now rewrite Hdesc.
  - destruct (defaults cfg !! parent) as [dd|]; [| congruence].
    cbn. now rewrite Hdesc.
Qed.

Lemma _FindTypeInfo_inherited_witness :
  _FindTypeInfo 2
    {| environment := ∅;
       raw_data := {["A" := {["@inherit_from_section" := "B"]};
                     "B" := {["key" := "v"]}]};
       defaults := ∅;
       type_infos := {["B.key" := strict_type_info]} |}
    (PyStr "A") "key" = Ok (Some strict_type_info).
Proof.
  apply (_FindTypeInfo_inherited _ "A" "B" "key"
           {["@inherit_from_section" := "B"]} strict_type_info 0);
    try reflexivity; try discriminate.
  left. exists {["key" := "v"]}. split; [reflexivity | discriminate].
Defined.

(** ** The interpolator: progress and termination *)

Lemma apply_filters_fuel (H : host) (names : list string) :
  (forall name f v, classes_by_name H name = Some f -> f v <> OutOfFuel) ->
  forall arg, apply_filters H names arg <> OutOfFuel.
Proof.
  intros Hf. induction names as [|name names IH]; intros arg; [discriminate |].
  cbn [apply_filters].
  destruct (classes_by_name H name) as [f|] eqn:Hname; [| discriminate].
  specialize (Hf name f arg Hname).
  destruct (f arg) as [arg'| |]; cbn [bind]; [apply IH | discriminate | congruence].
Qed.

Lemma from_callee_fuel {A} (p : option string) (r : result A) :
  r <> OutOfFuel -> from_callee p r <> OutOfFuel.
Proof. destruct r as [a|[]|]; cbn; congruence. Qed.

Lemma append_top_fuel (s : string) (lx : lexer) : append_top s lx <> OutOfFuel.
Proof. unfold append_top. destruct (stack lx); discriminate. Qed.

Section Termination.
Variable H : host.
Variable default_section : option string.
Variable parameter : option string.
Hypothesis getitem_returns :
  forall name, config_getitem H name <> OutOfFuel.
Hypothesis FindTypeInfo_returns :
  forall name, config_FindTypeInfo H name <> OutOfFuel.
Hypothesis filters_return :
  forall name f v, classes_by_name H name = Some f -> f v <> OutOfFuel.

Lemma run_action_fuel (a : action) (ps : list string) (lx : lexer) :
  run_action H default_section parameter a ps lx <> OutOfFuel.
Proof.
  assert (forall r : outcome lexer,
             r <> OutOfFuel ->
             (let! l := r in Ok (l, @None string)) <> OutOfFuel) as Hnone.
  { intros [l|e|]; cbn; congruence. }
  destruct a; cbn [run_action]; try apply Hnone;
    unfold do_AppendArg, do_Escape, do_StartExpression, do_PushState;
    try apply append_top_fuel; try discriminate.
  - unfold do_EndLiteralExpression.
    destruct (length (stack lx) <=? 1)%nat; [discriminate |].
    destruct (stack lx); [discriminate | apply append_top_fuel].
  - unfold do_PopState. destruct (state_stack lx); discriminate.
  - unfold do_Filter. destruct (stack lx) as [|arg rest]; [discriminate |].
    pose proof (from_callee_fuel parameter _
                  (apply_filters_fuel H (split "," (group 1 ps))
                     filters_return (PyStr arg))) as Hf.
    destruct (from_callee parameter
                (apply_filters H (split "," (group 1 ps)) (PyStr arg)))
      as [arg'| |]; cbn [bind]; [| discriminate | congruence].
    destruct arg'; try (destruct rest; discriminate);
      apply append_top_fuel.
  - unfold do_ExpandArg.
    destruct (length (stack lx) <=? 1)%nat; [discriminate |].
    destruct (stack lx) as [|name rest]; [discriminate |].
    match goal with
    | |- context [from_callee parameter (config_getitem H ?n)] =>
        pose proof (from_callee_fuel parameter _ (getitem_returns n)) as Hg;
        pose proof (from_callee_fuel parameter _ (FindTypeInfo_returns n)) as Ht;
        destruct (from_callee parameter (config_getitem H n)) as [v| |];
        cbn [bind]; [| discriminate | congruence];
        destruct (from_callee parameter (config_FindTypeInfo H n)) as [found| |];
        cbn [bind]; [| discriminate | congruence]
    end.
    apply append_top_fuel.
Qed.

Lemma run_actions_fuel (acts : list action) (ps : list string) :
  forall lx nxt,
    run_actions H default_section parameter acts ps lx nxt <> OutOfFuel.
Proof.
  induction acts as [|a acts IH]; intros lx nxt; [discriminate |].
  cbn [run_actions].
  pose proof (run_action_fuel a ps lx) as Ha.
  destruct (run_action H default_section parameter a ps lx) as [[lx1 o]| |];
    cbn [bind]; [apply IH | discriminate | congruence].
Qed.

Lemma NextToken_fuel (lx : lexer) :
  NextToken H default_section parameter lx <> OutOfFuel.
Proof.
  destruct (NextToken_cases H default_section parameter lx)
    as [[_ ->]|(_ & t & ps & rest & _ & ->)]; [discriminate |].
  pose proof (run_actions_fuel (actions t) ps (consume (group0 ps) rest lx)
                (next_state t)) as Hr.
  destruct (run_actions H default_section parameter (actions t) ps
              (consume (group0 ps) rest lx) (next_state t)) as [[lx1 nxt]| |];
    cbn [bind]; [discriminate | discriminate | congruence].
Qed.

Lemma Close_fuel (fuel : nat) :
  forall lx,
    (String.length (buffer lx) < fuel)%nat ->
    Close H default_section parameter fuel lx <> OutOfFuel.
Proof.
  induction fuel as [|fuel IH]; intros lx Hlen; [lia |].
  rewrite Close_unfold.
  pose proof (NextToken_fuel lx) as Hn.
  destruct (NextToken H default_section parameter lx) as [[lx1|]| |] eqn:Hstep;
    [| discriminate | discriminate | congruence].
  destruct (NextToken_Some _ _ _ _ _ Hstep) as (_ & Hshort & _).
  unfold settle. destruct (buffer lx1) eqn:Hb; [discriminate |].
  apply IH. rewrite Hb. lia.
Qed.

(** X17: an evaluation always comes to an end.  Every token of the table
    takes at least one character, in either state, so as long as the
    configuration and the filters it calls return, [Parse] returns a
    string or raises; it never runs on. *)
Theorem Parse_terminates (data : string) :
  Parse H default_section parameter data <> OutOfFuel.
Proof.
  unfold Parse.
  pose proof (Close_fuel (S (String.length data)) (new_lexer data)) as Hc.
  destruct (Close H default_section parameter (S (String.length data))
              (new_lexer data)) as [lx| |]; cbn [bind].
  - unfold finish. destruct (stack lx) as [|s [|]]; discriminate.
  - discriminate.
  - exfalso. apply Hc; [cbn; lia | reflexivity].
Qed.

End Termination.

Lemma Parse_terminates_witness :
  Parse empty_host None None "a%(b)c%{d}" <> OutOfFuel.
Proof.
  apply Parse_terminates; discriminate.
Defined.

(** ** The interpolator: balance *)

(** X18: the check of [EndLiteralExpression] never fires.  The literal
    state is only entered by [%{], which pushes an accumulator first, and
    nothing that can be read inside a literal pops one; so no evaluation
    ends with "Unbalanced literal sequence", and a [}] met outside of a
    literal is ordinary text. *)
Theorem EndLiteralExpression_check_never_fires (H : host) (ds p : option string)
        (data pb : string) :
  Parse H ds p data <> Raise (Unbalanced UnbalancedLiteral pb) /\
  (forall lx, reaches H ds p (new_lexer data) lx -> well_nested lx).
Proof.
  split; [apply literal_close_never_unbalanced |].
  intros lx Hreach. apply (reaches_well_nested _ _ _ _ _ Hreach).
  left. cbn. repeat split. discriminate.
Qed.

(** ** The interpolator, token by token *)

Lemma span_all_in (cs : charset) (t b : string) :
  all_in cs t = true ->
  match b with
  | EmptyString => True
  | String c _ => in_charset c cs = false
  end ->
  span cs (t +:+ b) = (t, b).
Proof.
  intros Ht Hb. induction t as [|c t IH].
  - rewrite append_nil_l. destruct b as [|c b]; [reflexivity |].
    cbn [span]. now rewrite Hb.
  - cbn [all_in] in Ht. apply andb_true_iff in Ht. destruct Ht as [Hc Ht].
    rewrite append_cons. cbn [span]. now rewrite Hc, (IH Ht).
Qed.

Lemma Close_more (H : host) (ds p : option string) (fuel : nat)
      (lx lx' : lexer) (c : ascii) (s : string) :
  NextToken H ds p lx = Ok (Some lx') ->
  buffer lx' = String c s ->
  Close H ds p (S fuel) lx = Close H ds p fuel lx'.
Proof.
  intros Hstep Hbuf. rewrite Close_unfold, Hstep. unfold settle.
  now rewrite Hbuf.
Qed.

Lemma Close_last (H : host) (ds p : option string) (fuel : nat)
      (lx lx' : lexer) :
  NextToken H ds p lx = Ok (Some lx') ->
  buffer lx' = EmptyString ->
  Close H ds p (S fuel) lx = Ok lx'.
Proof.
  intros Hstep Hbuf. rewrite Close_unfold, Hstep. unfold settle.
  now rewrite Hbuf.
Qed.

(** [%(] opens an expansion: an empty accumulator is pushed. *)
Lemma step_open (H : host) (ds p : option string) (b : string)
      (ss : list string) (pb : string) (st : list string) :
  NextToken H ds p (initial ("%(" +:+ b) ss pb st) =
    Ok (Some (initial b ss (pb +:+ "%(") (EmptyString :: st))).
Proof. reflexivity. Qed.

(** A run of plain text goes to the accumulator on top. *)
Lemma step_text (H : host) (ds p : option string) (c : ascii) (t b : string)
      (ss : list string) (pb top : string) (st : list string) :
  all_in text_class (String c t) = true ->
  match b with
  | EmptyString => True
  | String c' _ => in_charset c' text_class = false
  end ->
  NextToken H ds p (initial (String c t +:+ b) ss pb (top :: st)) =
    Ok (Some (initial b ss (pb +:+ String c t) ((top +:+ String c t) :: st))).
Proof.
  intros Ht Hb. cbn [all_in] in Ht.
  apply andb_true_iff in Ht. destruct Ht as [Hc Ht].
  unfold NextToken, initial. cbn [buffer state].
  rewrite append_cons, (select_text c _ Hc), (span_all_in _ _ _ Ht Hb).
  cbn [fst snd]. cbn. now rewrite !append_nil_r.
Qed.

Lemma all_letters_no_comma (name : string) :
  all_in Letters name = true -> contains "," name = false.
Proof.
  induction name as [|c name IH]; [reflexivity |].
  cbn [all_in contains]. intros Hl.
  apply andb_true_iff in Hl. destruct Hl as [Hc Hl].
  rewrite (IH Hl), orb_false_r.
  destruct (ascii_eqb c ",") eqn:Hcomma; [| reflexivity].
  apply ascii_eqb_eq in Hcomma. subst c. discriminate.
Qed.

Lemma split_no_separator (sep : ascii) (s : string) :
  contains sep s = false -> split sep s = [s].
Proof.
  induction s as [|c s IH]; [reflexivity |].
  cbn [contains split]. intros Hno.
  apply orb_false_iff in Hno. destruct Hno as [Hc Hs].
  now rewrite Hc, (IH Hs).
Qed.

(** A bar, a name made of letters and a close parenthesis are one token. *)
Lemma re_match_filter_suffix (name b : string) :
  all_in Letters name = true ->
  name <> EmptyString ->
  re_match [One (Chr "|"); Many Letters; One (Chr ")")]
           ("|" +:+ name +:+ ")" +:+ b) =
    Some (["|"; name; ")"], b).
Proof.
  intros Hl Hne.
  change ("|" +:+ name +:+ ")" +:+ b) with (String "|" (name +:+ String ")" b)).
  change (re_match [One (Chr "|"); Many Letters; One (Chr ")")]
                   (String "|" (name +:+ String ")" b)))
    with (push_piece "|" (re_match [Many Letters; One (Chr ")")]
                                   (name +:+ String ")" b))).
  assert (re_match [Many Letters; One (Chr ")")] (name +:+ String ")" b) =
          Some ([name; ")"], b)) as ->; [| reflexivity].
  induction name as [|c name IH]; [congruence |].
  cbn [all_in] in Hl. apply andb_true_iff in Hl. destruct Hl as [Hc Hl].
  rewrite append_cons.
  destruct name as [|c' name'].
  - rewrite append_nil_l. cbn [re_match]. rewrite Hc. reflexivity.
  - specialize (IH Hl ltac:(discriminate)).
    cbn [re_match] in *. rewrite Hc, IH. reflexivity.
Qed.

Lemma select_filter_suffix (name b : string) :
  all_in Letters name = true ->
  name <> EmptyString ->
  select_token "INITIAL" ("|" +:+ name +:+ ")" +:+ b) tokens =
    Some (token_at 6, ["|"; name; ")"], b).
Proof.
  intros Hl Hne.
  rewrite select_token_INITIAL. unfold initial_tokens.
  change ("|" +:+ name +:+ ")" +:+ b) with (String "|" (name +:+ String ")" b)).
  do 3 (rewrite select_token_skip; [| reflexivity]).
  apply select_token_hit; [reflexivity |].
  now apply re_match_filter_suffix.
Qed.

(** The filter suffix replaces the accumulator on top by its image under
    the filter and appends it to the one below. *)
Lemma step_filter (H : host) (ds p : option string) (name b : string)
      (ss : list string) (pb arg parent : string) (st : list string)
      (f : pyobj -> result pyobj) (r : string) :
  all_in Letters name = true ->
  name <> EmptyString ->
  classes_by_name H name = Some f ->
  f (PyStr arg) = Ok (PyStr r) ->
  NextToken H ds p
    (initial ("|" +:+ name +:+ ")" +:+ b) ss pb (arg :: parent :: st)) =
    Ok (Some (initial b ss (pb +:+ "|" +:+ name +:+ ")")
                      ((parent +:+ r) :: st))).
Proof.
  intros Hl Hne Hf Hr.
  unfold NextToken, initial. cbn [buffer state].
  change ("|" +:+ name +:+ ")" +:+ b) with (String "|" (name +:+ String ")" b)).
  change (String "|" (name +:+ String ")" b))
    with ("|" +:+ name +:+ ")" +:+ b) at 2.
  rewrite (select_filter_suffix name b Hl Hne).
  cbn [actions token_at tokens nth mkToken run_actions run_action next_state
       consume].
  unfold do_Filter. cbn [stack consume group nth].
  rewrite (split_no_separator "," name (all_letters_no_comma name Hl)).
  cbn [apply_filters]. rewrite Hf, Hr. cbn.
  now rewrite append_nil_r.
Qed.


Lemma step_reference (H : host) (ds p : option string) (b : string)
      (ss : list string) (pb name parent : string) (st : list string) :
  NextToken H ds p (initial (")" +:+ b) ss pb (name :: parent :: st)) =
    (let! s := reference_outcome H p (qualified ds name) in
     Ok (Some (initial b ss (pb +:+ ")") ((parent +:+ s) :: st)))).
Proof.
  unfold NextToken, initial. cbn [buffer state].
  change (select_token "INITIAL" (")" +:+ b) tokens)
    with (Some (token_at 7, [String ")" EmptyString], b)).
  cbn [actions token_at tokens nth mkToken run_actions run_action
       next_state consume].
  unfold do_ExpandArg, reference_outcome. cbn [stack consume length Nat.leb].
  fold (qualified ds name).
  destruct (from_callee p (config_getitem H (qualified ds name)))
    as [v| |]; cbn [bind]; try reflexivity.
  destruct (from_callee p (config_FindTypeInfo H (qualified ds name)))
    as [found| |]; cbn [bind]; reflexivity.
Qed.

(** The evaluation of [%(text)] and of [%(text|name)] for a plain text:
    the opening, the text, and then the one token that closes the
    expansion. *)
Lemma Close_expansion (H : host) (ds p : option string) (t suffix : string)
      (fuel : nat) (o : outcome string) :
  all_in text_class t = true ->
  match suffix with
  | EmptyString => False
  | String c' _ => in_charset c' text_class = false
  end ->
  (forall pb, NextToken H ds p (initial suffix [] pb [t; EmptyString]) =
              (let! s := o in
               Ok (Some (initial EmptyString [] (pb +:+ suffix) [s])))) ->
  Close H ds p (S (S (S fuel))) (new_lexer ("%(" +:+ t +:+ suffix)) =
  (let! s := o in
   Ok (initial EmptyString [] ("%(" +:+ t +:+ suffix) [s])).
Proof.
  intros Ht Hsuffix Hnext.
  destruct suffix as [|c' suffix']; [destruct Hsuffix |].
  change (new_lexer ("%(" +:+ t +:+ String c' suffix'))
    with (initial ("%(" +:+ (t +:+ String c' suffix')) [] EmptyString
                  [EmptyString]).
  destruct t as [|c t'].
  - rewrite append_nil_l.
    rewrite (Close_more H ds p _ _ _ c' suffix' (step_open H ds p _ _ _ _) eq_refl).
    rewrite Close_unfold, Hnext.
    destruct o as [s| |]; reflexivity.
  - rewrite (Close_more H ds p _ _ _ c (t' +:+ String c' suffix')
               (step_open H ds p _ _ _ _) eq_refl).
    rewrite (Close_more H ds p _ _ _ c' suffix'
               (step_text H ds p c t' (String c' suffix') [] _ EmptyString
                          [EmptyString] Ht Hsuffix) eq_refl).
    rewrite Close_unfold, append_nil_l, Hnext.
    destruct o as [s| |]; [| reflexivity | reflexivity].
    cbn [bind]. unfold settle. cbn [initial buffer].
    reflexivity.
Qed.

Lemma expansion_budget (t suffix : string) :
  suffix <> EmptyString ->
  exists fuel,
    S (String.length ("%(" +:+ t +:+ suffix)) = S (S (S fuel)).
Proof.
  intros Hs. destruct suffix as [|c s]; [congruence |].
  exists (S (String.length t + String.length s)).
  change ("%(" +:+ t +:+ String c s)
    with (String "%" (String "(" (t +:+ String c s))).
  cbn [String.length]. rewrite length_append. cbn [String.length]. lia.
Qed.

Lemma bind_finish (o : outcome string) (pb : string) :
  (let! lx := (let! s := o in Ok (initial EmptyString [] pb [s])) in
   finish lx) = o.
Proof. destruct o; reflexivity. Qed.

(** The pass over [%(name)] for a plain name. *)
Lemma Close_reference (H : host) (ds p : option string) (name : string) :
  all_in text_class name = true ->
  Close H ds p (S (String.length ("%(" +:+ name +:+ ")")))
        (new_lexer ("%(" +:+ name +:+ ")")) =
  (let! s := reference_outcome H p (qualified ds name) in
   Ok (initial EmptyString [] ("%(" +:+ name +:+ ")") [s])).
Proof.
  intros Hname.
  destruct (expansion_budget name ")") as [fuel ->]; [discriminate |].
  apply Close_expansion; [exact Hname | reflexivity |].
  intros pb.
  change ")" with (")" +:+ EmptyString) at 1.
  rewrite step_reference.
  destruct (reference_outcome H p (qualified ds name)); reflexivity.
Qed.

Lemma all_in_app (cs : charset) (a b : string) :
  all_in cs (a +:+ b) = all_in cs a && all_in cs b.
Proof.
  induction a as [|c a IH]; [now rewrite append_nil_l |].
  rewrite append_cons. cbn [all_in]. now rewrite IH, andb_assoc.
Qed.

Lemma contains_app (c : ascii) (a b : string) :
  contains c (a +:+ b) = contains c a || contains c b.
Proof.
  induction a as [|x a IH]; [now rewrite append_nil_l |].
  rewrite append_cons. cbn [contains]. now rewrite IH, orb_assoc.
Qed.

Lemma qualified_qualified (ds : option string) (name : string) :
  qualified ds (qualified ds name) = qualified ds name.
Proof.
  unfold qualified at 2 3.
  destruct (contains "." name) eqn:Hdot.
  - unfold qualified. now rewrite Hdot.
  - unfold qualified.
    rewrite contains_app.
    change ("." +:+ name) with (String "." name).
    cbn [contains]. rewrite ascii_eqb_refl.
    now rewrite orb_true_r.
Qed.

(** X19: a reference [%(name)] whose name is plain text evaluates to the
    value the configuration has for the name, qualified with the default
    section when it holds no dot; [None] counts as the empty string, and
    the value is rendered by the descriptor of the name, or as a string
    when the name has none.  An error of one of the two lookups ends the
    evaluation. *)
Theorem Parse_reference (H : host) (ds p : option string) (name : string) :
  all_in text_class name = true ->
  Parse H ds p ("%(" +:+ name +:+ ")") =
  reference_outcome H p (qualified ds name).
Proof.
  intros Hname. unfold Parse.
  rewrite (Close_reference H ds p name Hname).
  apply bind_finish.
Qed.

Lemma Parse_reference_witness :
  Parse empty_host (Some "Client") None "%(name)" =
  reference_outcome empty_host None (qualified (Some "Client") "name").
Proof.
  apply (Parse_reference empty_host (Some "Client") None "name").
  reflexivity.
Defined.

(** X20: inside a parameter of section [s], a short reference [%(name)]
    (no dot in the name) and the full reference [%(s.name)] evaluate
    alike, errors included, as long as the name of the section is plain
    text. *)
Theorem Parse_default_section (H : host) (ds p : option string)
        (name : string) :
  all_in text_class (py_str ds) = true ->
  all_in text_class name = true ->
  contains "." name = false ->
  Parse H ds p ("%(" +:+ name +:+ ")") =
  Parse H ds p ("%(" +:+ (py_str ds +:+ "." +:+ name) +:+ ")").
Proof.
  intros Hds Hname Hdot.
  assert (Hq : qualified ds name = py_str ds +:+ "." +:+ name)
    by (unfold qualified; now rewrite Hdot).
  assert (Hfull : all_in text_class (py_str ds +:+ "." +:+ name) = true)
    by (rewrite !all_in_app, Hds, Hname; reflexivity).
  unfold Parse.
  rewrite (Close_reference H ds p name Hname).
  rewrite (Close_reference H ds p _ Hfull).
  rewrite <- Hq, qualified_qualified.
  destruct (reference_outcome H p (qualified ds name)); reflexivity.
Qed.

Lemma Parse_default_section_witness :
  Parse empty_host (Some "Client") None "%(name)" =
  Parse empty_host (Some "Client") None "%(Client.name)".
Proof.
  apply (Parse_default_section empty_host (Some "Client") None "name");
    reflexivity.
Defined.

(** X21: [%(text|name)] with a plain text and a registered filter [name]
    evaluates to what the filter returns for the text. *)
Theorem Parse_filter (H : host) (ds p : option string) (t name : string)
        (f : pyobj -> result pyobj) (r : string) :
  all_in text_class t = true ->
  all_in Letters name = true ->
  name <> EmptyString ->
  classes_by_name H name = Some f ->
  f (PyStr t) = Ok (PyStr r) ->
  Parse H ds p ("%(" +:+ t +:+ "|" +:+ name +:+ ")") = Ok r.
Proof.
  intros Ht Hl Hne Hf Hr. unfold Parse.
  destruct (expansion_budget t ("|" +:+ name +:+ ")")) as [fuel ->];
    [discriminate |].
  rewrite (Close_expansion H ds p t ("|" +:+ name +:+ ")") fuel (Ok r) Ht
             eq_refl).
  - reflexivity.
  - intros pb.
    pose proof (step_filter H ds p name EmptyString [] pb t EmptyString []
                            f r Hl Hne Hf Hr) as Hstep.
    rewrite append_nil_r in Hstep. rewrite Hstep. reflexivity.
Qed.

Lemma Parse_filter_witness :
  Parse (manager_host sample_externals 3 new_config) (Some "Client") None
        "%(Hello|lower)" = Ok "hello".
Proof.
  apply (Parse_filter _ _ _ "Hello" "lower" Lower_Filter "hello");
    try reflexivity. discriminate.
Defined.



(** ** Longer evaluations *)

(** Any budget above the length of the buffer gives the same pass. *)
Lemma Close_budget (H : host) (ds p : option string) (fuel : nat) :
  forall fuel' lx,
    (String.length (buffer lx) < fuel)%nat ->
    (String.length (buffer lx) < fuel')%nat ->
    Close H ds p fuel lx = Close H ds p fuel' lx.
Proof.
  induction fuel as [|fuel IH]; intros fuel' lx Hlt Hlt'; [lia |].
  destruct fuel' as [|fuel']; [lia |].
  rewrite !Close_unfold.
  destruct (NextToken H ds p lx) as [[lx1|]| |] eqn:Hstep; try reflexivity.
  destruct (NextToken_Some _ _ _ _ _ Hstep) as (_ & Hshort & _).
  unfold settle. destruct (buffer lx1) eqn:Hb; [reflexivity |].
  apply IH; rewrite Hb; cbn [String.length] in *; lia.
Qed.

Lemma Close_next (H : host) (ds p : option string) (fuel : nat)
      (lx lx' : lexer) :
  NextToken H ds p lx = Ok (Some lx') ->
  buffer lx' <> EmptyString ->
  (String.length (buffer lx) < fuel)%nat ->
  Close H ds p fuel lx =
  Close H ds p (S (String.length (buffer lx'))) lx'.
Proof.
  intros Hstep Hbuf Hlt.
  destruct (NextToken_Some _ _ _ _ _ Hstep) as (_ & Hshort & _).
  destruct fuel as [|fuel]; [lia |].
  destruct (buffer lx') as [|c s] eqn:Hb; [congruence |].
  rewrite (Close_more H ds p fuel lx lx' c s Hstep Hb).
  apply Close_budget; rewrite Hb; cbn [String.length] in *; lia.
Qed.

(** A plain text, possibly empty, in front of something else. *)
Lemma Close_text (H : host) (ds p : option string) (t suffix : string)
      (ss : list string) (pb top : string) (st : list string) :
  all_in text_class t = true ->
  match suffix with
  | EmptyString => False
  | String c' _ => in_charset c' text_class = false
  end ->
  Close H ds p (S (String.length (t +:+ suffix)))
        (initial (t +:+ suffix) ss pb (top :: st)) =
  Close H ds p (S (String.length suffix))
        (initial suffix ss (pb +:+ t) ((top +:+ t) :: st)).
Proof.
  intros Ht Hsuffix.
  destruct t as [|c t].
  - now rewrite append_nil_l, !append_nil_r.
  - destruct suffix as [|c' suffix']; [destruct Hsuffix |].
    rewrite (Close_next H ds p _ _ _
               (step_text H ds p c t (String c' suffix') ss pb top st
                          Ht Hsuffix));
      [reflexivity | discriminate | cbn [initial buffer]; lia].
Qed.

(** X23: filters nest, and the inner one is applied first:
    [%(%(text|inner)|outer)] evaluates to what the outer filter returns
    for the result of the inner one. *)
Theorem Parse_nested_filters (H : host) (ds p : option string)
        (t inner outer : string) (f g : pyobj -> result pyobj)
        (r1 r2 : string) :
  all_in text_class t = true ->
  all_in Letters inner = true -> inner <> EmptyString ->
  all_in Letters outer = true -> outer <> EmptyString ->
  classes_by_name H inner = Some f ->
  classes_by_name H outer = Some g ->
  f (PyStr t) = Ok (PyStr r1) ->
  g (PyStr r1) = Ok (PyStr r2) ->
  Parse H ds p ("%(" +:+ "%(" +:+ t +:+ "|" +:+ inner +:+ ")"
                     +:+ "|" +:+ outer +:+ ")") = Ok r2.
Proof.
  intros Ht Hi Hine Ho Hone Hf Hg Hr1 Hr2. unfold Parse.
  set (tail := "|" +:+ outer +:+ ")").
  set (body := "|" +:+ inner +:+ ")" +:+ tail).
  change (new_lexer ("%(" +:+ "%(" +:+ t +:+ body))
    with (initial ("%(" +:+ "%(" +:+ t +:+ body) [] EmptyString [EmptyString]).
  rewrite (Close_next H ds p _ _ _ (step_open H ds p _ _ _ _));
    [| discriminate | cbn [initial buffer]; lia].
  cbn [initial buffer].
  fold (initial ("%(" +:+ t +:+ body) [] (EmptyString +:+ "%(")
                [EmptyString; EmptyString]).
  rewrite (Close_next H ds p _ _ _ (step_open H ds p _ _ _ _));
    [| cbn [initial buffer]; subst body; destruct t; discriminate
     | cbn [initial buffer]; lia].
  cbn [initial buffer].
  fold (initial (t +:+ body) [] ((EmptyString +:+ "%(") +:+ "%(")
                [EmptyString; EmptyString; EmptyString]).
  rewrite (Close_text H ds p t body _ _ _ _ Ht eq_refl).
  rewrite append_nil_l.
  pose proof (step_filter H ds p inner tail []
                (((EmptyString +:+ "%(") +:+ "%(") +:+ t) t EmptyString
                [EmptyString] f r1 Hi Hine Hf Hr1) as Hinner.
  fold body in Hinner.
  rewrite (Close_next H ds p _ _ _ Hinner);
    [| discriminate | cbn [initial buffer]; lia].
  cbn [initial buffer]. rewrite append_nil_l.
  pose proof (step_filter H ds p outer EmptyString []
                ((((EmptyString +:+ "%(") +:+ "%(") +:+ t)
                   +:+ "|" +:+ inner +:+ ")")
                r1 EmptyString [] g r2 Ho Hone Hg Hr2) as Houter.
  rewrite append_nil_r in Houter. fold tail in Houter.
  rewrite (Close_last H ds p _ _ _ Houter eq_refl).
  cbn [bind finish initial stack]. now rewrite append_nil_l.
Qed.

Lemma Parse_nested_filters_witness :
  Parse (manager_host sample_externals 3 new_config) (Some "Client") None
        "%(%(Hello|lower)|upper)" = Ok "HELLO".
Proof.
  apply (Parse_nested_filters _ _ _ "Hello" "lower" "upper"
                              Lower_Filter Upper_Filter "hello" "HELLO");
    try reflexivity; discriminate.
Defined.

(** ** Lists of filters *)

Lemma letter_is_text (c : ascii) :
  in_charset c Letters = true -> in_charset c text_class = true.
Proof.
  destruct c as [[] [] [] [] [] [] [] []]; vm_compute; congruence.
Qed.

Lemma letters_are_text (s : string) :
  all_in Letters s = true -> all_in text_class s = true.
Proof.
  induction s as [|c s IH]; [reflexivity |].
  cbn [all_in]. intros Hl. apply andb_true_iff in Hl. destruct Hl as [Hc Hl].
  now rewrite (letter_is_text c Hc), (IH Hl).
Qed.

(** Letters followed by a comma are not the name of a filter token. *)
Lemma re_match_filter_comma (names b : string) :
  all_in Letters names = true ->
  re_match [One (Chr "|"); Many Letters; One (Chr ")")]
           ("|" +:+ names +:+ "," +:+ b) = None.
Proof.
  intros Hl.
  change ("|" +:+ names +:+ "," +:+ b)
    with (String "|" (names +:+ String "," b)).
  change (re_match [One (Chr "|"); Many Letters; One (Chr ")")]
                   (String "|" (names +:+ String "," b)))
    with (push_piece "|" (re_match [Many Letters; One (Chr ")")]
                                   (names +:+ String "," b))).
  assert (re_match [Many Letters; One (Chr ")")] (names +:+ String "," b) =
          None) as ->; [| reflexivity].
  induction names as [|c names IH]; [reflexivity |].
  cbn [all_in] in Hl. apply andb_true_iff in Hl. destruct Hl as [Hc Hl].
  specialize (IH Hl). rewrite append_cons.
  cbn [re_match] in *. rewrite Hc, IH.
  destruct names as [|c' names'].
  - reflexivity.
  - rewrite append_cons. cbn [all_in] in Hl.
    apply andb_true_iff in Hl. destruct Hl as [Hc' _].
    destruct (in_charset c' (Chr ")")) eqn:Hclose; [| reflexivity].
    cbn [in_charset] in Hclose. apply ascii_eqb_eq in Hclose. subst c'.
    discriminate.
Qed.

(** Such a bar is taken as a character of its own and goes to the
    accumulator on top. *)
Lemma step_bar (H : host) (ds p : option string) (names b : string)
      (ss : list string) (pb top : string) (st : list string) :
  all_in Letters names = true ->
  NextToken H ds p
    (initial ("|" +:+ names +:+ "," +:+ b) ss pb (top :: st)) =
    Ok (Some (initial (names +:+ "," +:+ b) ss (pb +:+ "|")
                      ((top +:+ "|") :: st))).
Proof.
  intros Hl.
  unfold NextToken, initial. cbn [buffer state].
  assert (select_token "INITIAL" ("|" +:+ names +:+ "," +:+ b) tokens =
          Some (token_at 9, [String "|" EmptyString], names +:+ "," +:+ b))
    as ->.
  { rewrite select_token_INITIAL. unfold initial_tokens.
    pose proof (re_match_filter_comma names b Hl) as Hno.
    change ("|" +:+ names +:+ "," +:+ b)
      with (String "|" (names +:+ "," +:+ b)) in *.
    do 3 (rewrite select_token_skip; [| reflexivity]).
    rewrite select_token_skip; [| exact Hno].
    do 2 (rewrite select_token_skip; [| reflexivity]).
    apply select_token_hit; reflexivity. }
  cbn. reflexivity.
Qed.

(** X24: the filter token takes letters only, so a comma-separated list
    of filters is never applied: in [%(text|a,b)] the bar and the list
    are part of the name that is looked up in the configuration. *)
Theorem Parse_filter_list_not_applied (H : host) (ds p : option string)
        (t a b : string) :
  all_in text_class t = true ->
  all_in Letters a = true ->
  all_in Letters b = true ->
  Parse H ds p ("%(" +:+ t +:+ "|" +:+ a +:+ "," +:+ b +:+ ")") =
  reference_outcome H p (qualified ds (t +:+ "|" +:+ a +:+ "," +:+ b)).
Proof.
  intros Ht Ha Hb. unfold Parse.
  set (list := a +:+ "," +:+ b).
  assert (Hlist : all_in text_class list = true).
  { subst list. rewrite !all_in_app, (letters_are_text a Ha),
      (letters_are_text b Hb). reflexivity. }
  change (new_lexer ("%(" +:+ t +:+ "|" +:+ a +:+ "," +:+ b +:+ ")"))
    with (initial ("%(" +:+ t +:+ "|" +:+ a +:+ "," +:+ b +:+ ")") []
                  EmptyString [EmptyString]).
  rewrite (Close_next H ds p _ _ _ (step_open H ds p _ _ _ _));
    [| cbn [initial buffer]; destruct t; discriminate
     | cbn [initial buffer]; lia].
  cbn [initial buffer].
  fold (initial (t +:+ "|" +:+ a +:+ "," +:+ b +:+ ")") []
                (EmptyString +:+ "%(") [EmptyString; EmptyString]).
  rewrite (Close_text H ds p t ("|" +:+ a +:+ "," +:+ b +:+ ")") _ _ _ _
             Ht eq_refl).
  rewrite append_nil_l.
  rewrite (Close_next H ds p _ _ _
             (step_bar H ds p a (b +:+ ")") _ _ _ _ Ha));
    [| cbn [initial buffer]; destruct a; discriminate
     | cbn [initial buffer]; lia].
  cbn [initial buffer].
  fold (initial (a +:+ "," +:+ b +:+ ")") []
                (((EmptyString +:+ "%(") +:+ t) +:+ "|")
                [t +:+ "|"; EmptyString]).
  replace (a +:+ "," +:+ b +:+ ")") with (list +:+ ")")
    by (subst list; now rewrite <- !append_assoc).
  rewrite (Close_text H ds p list ")" _ _ _ _ Hlist eq_refl).
  pose proof (step_reference H ds p EmptyString []
                ((("%(" +:+ t) +:+ "|") +:+ list)
                ((t +:+ "|") +:+ list) EmptyString []) as Hstep.
  rewrite append_nil_r in Hstep.
  rewrite Close_unfold, !append_nil_l, Hstep.
  replace ((t +:+ "|") +:+ list) with (t +:+ "|" +:+ list)
    by now rewrite <- !append_assoc.
  destruct (reference_outcome H p (qualified ds (t +:+ "|" +:+ list)));
    reflexivity.
Qed.

Lemma Parse_filter_list_not_applied_witness :
  Parse empty_host (Some "Client") None "%(Hello|lower,upper)" =
  reference_outcome empty_host None
    (qualified (Some "Client") "Hello|lower,upper").
Proof.
  apply (Parse_filter_list_not_applied empty_host (Some "Client") None
           "Hello" "lower" "upper"); reflexivity.
Defined.
